(** * mobius_strip.py: mesh, surface area and edge length of a Moebius strip

    The program is one Python class, [MobiusStrip], whose constructor samples
    the parameter rectangle, evaluates the half-twist embedding on the samples
    and derives two scalars from them.  It is embedded here as pure functions
    over an abstract float type: the class [Float] lists the arithmetic the
    program takes from Python and numpy, and the program is written once for
    every instance of it.  Statements that only depend on the shape of the
    computation are proved for every instance; statements that need the laws
    of arithmetic are proved for the instance over the real numbers, i.e. for
    the program with every float operation read as the exact operation it
    rounds.

    Two further readings complete the picture.  The constructor is also
    written on an explicit attribute dictionary, to state that its outcome
    depends on its arguments only.  And the embedding is run on binary64,
    with the values of [cos] and [sin] tabulated where a run needs them, to
    show where a statement over the reals is not a statement about the
    rounded values.

    What is taken from numpy and how it is read:
    - an arithmetic operator or [np.cos], [np.sin], [np.sqrt] applied to
      arrays works cell by cell, a scalar operand being used in every cell;
    - [x**2] on a float array is [x * x];
    - [np.sum] adds the cells in row-major order starting from 0 (numpy adds
      in blocks; the order matters to the last bits of a binary64 result and
      not at all over the reals);
    - [np.linspace], [np.meshgrid], [np.diff] and indexing are written out
      below. *)

From Stdlib Require Import Floats Uint63.
From Stdlib Require Import Reals Lra Lia ZArith List Bool.
Import ListNotations.

(** ** Exceptions

    The only exceptions the constructor can meet are numpy's [ValueError]
    (a negative sample count given to [linspace]) and [IndexError] (an index
    past the end of an array). *)

Inductive exn : Type :=
| ValueError
| IndexError.

Inductive result (A : Type) : Type :=
| Ok (a : A)
| Raise (e : exn).

Arguments Ok {A} a.
Arguments Raise {A} e.

Definition bind {A B : Type} (m : result A) (k : A -> result B) : result B :=
  match m with
  | Ok a => k a
  | Raise e => Raise e
  end.

Notation "x <- m ;; k" := (bind m (fun x => k))
  (at level 61, m at next level, right associativity).

(** ** The arithmetic interface *)

Class Float (F : Type) : Type := {
  of_Z : Z -> F;          (* a Python int used where a float is expected *)
  fadd : F -> F -> F;
  fsub : F -> F -> F;
  fmul : F -> F -> F;
  fdiv : F -> F -> F;
  fneg : F -> F;
  fsqrt : F -> F;         (* np.sqrt *)
  fcos : F -> F;          (* np.cos *)
  fsin : F -> F;          (* np.sin *)
  fpi : F;                (* np.pi *)
  feqb : F -> F -> bool   (* == *)
}.

Declare Scope np_scope.
Delimit Scope np_scope with np.
Notation "x + y" := (fadd x y) : np_scope.
Notation "x - y" := (fsub x y) : np_scope.
Notation "x * y" := (fmul x y) : np_scope.
Notation "x / y" := (fdiv x y) : np_scope.
Notation "- x" := (fneg x) : np_scope.

(** Elementwise combination of two arrays of one shape. *)
Fixpoint map2 {A B C : Type} (f : A -> B -> C) (l : list A) (l' : list B)
  : list C :=
  match l, l' with
  | a :: t, b :: t' => f a b :: map2 f t t'
  | _, _ => []
  end.

Fixpoint map3 {A B C D : Type} (f : A -> B -> C -> D)
  (l : list A) (l' : list B) (l'' : list C) : list D :=
  match l, l', l'' with
  | a :: t, b :: t', c :: t'' => f a b c :: map3 f t t' t''
  | _, _, _ => []
  end.

Definition option_map2 {A B C : Type} (f : A -> B -> C)
  (oa : option A) (ob : option B) : option C :=
  match oa, ob with
  | Some a, Some b => Some (f a b)
  | _, _ => None
  end.

Section Program.

Context {F : Type} `{Float F}.
Local Open Scope np_scope.

(** A two-dimensional array, as the list of its rows. *)
Definition grid : Type := list (list F).

(** *** numpy *)

(** [np.arange(0, num)] as floats. *)
Definition arange (num : Z) : list F :=
  map (fun k => of_Z (Z.of_nat k)) (seq 0 (Z.to_nat num)).

(** [y[-1] = stop] on a non-empty array. *)
Definition set_last (y : list F) (stop : F) : list F :=
  removelast y ++ [stop].

(** [np.linspace(start, stop, num)] with the default [endpoint=True]:
    the samples are [k * step + start], the last one is overwritten by
    [stop], a vanishing step takes the branch that divides first, and a
    negative [num] is refused. *)
Definition linspace (start stop : F) (num : Z) : result (list F) :=
  if (num <? 0)%Z then Raise ValueError
  else
    let div := (num - 1)%Z in
    let delta := stop - start in
    let y := arange num in
    let y :=
      if (0 <? div)%Z then
        let step := delta / of_Z div in
        if feqb step (of_Z 0)
        then map (fun e => e / of_Z div * delta) y
        else map (fun e => e * step) y
      else map (fun e => e * delta) y in
    let y := map (fun e => e + start) y in
    Ok (if (1 <? num)%Z then set_last y stop else y).

(** [np.meshgrid(u, v)] with the default ['xy'] indexing: both grids have one
    row per element of [v] and one column per element of [u]. *)
Definition meshgrid (u v : list F) : grid * grid :=
  (map (fun _ => u) v, map (fun vi => map (fun _ => vi) u) v).

(** [np.sum] of a one-dimensional array, and of all cells of a grid. *)
Definition np_sum (a : list F) : F := fold_left fadd a (of_Z 0).

Definition np_sum2 (a : grid) : F := np_sum (concat a).

(** [np.diff(a)], that is [a[1:] - a[:-1]]. *)
Definition np_diff (a : list F) : list F :=
  map2 fsub (tl a) (removelast a).

(** [a[i]] for a non-negative index. *)
Definition getitem (a : list F) (i : nat) : result F :=
  match nth_error a i with
  | Some x => Ok x
  | None => Raise IndexError
  end.

(** *** The object *)

(** The attributes [__init__] has assigned before it calls a method.  The
    fields are [self.R], [self.w], ... under names that do not hide the type
    of the reals or the variables of the statements. *)
Record Attrs : Type := mkAttrs {
  self_R : F;
  self_w : F;
  self_n : Z;
  self_u : list F;
  self_v : list F;
  self_U : grid;
  self_V : grid
}.

(** The finished object. *)
Record MobiusStrip : Type := mkMobiusStrip {
  attrs : Attrs;
  mesh : grid * grid * grid;
  surface_area : F;
  edge_length : F
}.

(** *** Methods *)

(** [parametric_equations] at one pair of parameters. *)
Definition parametric_equations (self : Attrs) (u v : F) : F * F * F :=
  let x := (self_R self + v * fcos (u / of_Z 2)) * fcos u in
  let y := (self_R self + v * fcos (u / of_Z 2)) * fsin u in
  let z := v * fsin (u / of_Z 2) in
  (x, y, z).

(** numpy evaluates the three expressions cell by cell.  The call in
    [compute_edge_length] passes the array [u] and one float [v]... *)
Definition parametric_equations_vec (self : Attrs) (u : list F) (v : F)
  : list F * list F * list F :=
  (map (fun ui => fst (fst (parametric_equations self ui v))) u,
   map (fun ui => snd (fst (parametric_equations self ui v))) u,
   map (fun ui => snd (parametric_equations self ui v)) u).

(** ... and the call in [compute_mesh] passes two grids of one shape.  On
    grids of different shapes numpy broadcasts or raises [ValueError];
    [map2] does neither, and the statements below only use it on the two
    grids of one [meshgrid]. *)
Definition parametric_equations_grid (self : Attrs) (U V : grid)
  : grid * grid * grid :=
  (map2 (map2 (fun ui vi => fst (fst (parametric_equations self ui vi)))) U V,
   map2 (map2 (fun ui vi => snd (fst (parametric_equations self ui vi)))) U V,
   map2 (map2 (fun ui vi => snd (parametric_equations self ui vi))) U V).

Definition compute_mesh (self : Attrs) : grid * grid * grid :=
  parametric_equations_grid self (self_U self) (self_V self).

(** The local function of [compute_surface_area], at one pair of
    parameters. *)
Definition partial_derivatives (self : Attrs) (u v : F)
  : (F * F * F) * (F * F * F) :=
  let du_x := - v * fsin (u / of_Z 2) * fcos u / of_Z 2
              - (self_R self + v * fcos (u / of_Z 2)) * fsin u in
  let du_y := - v * fsin (u / of_Z 2) * fsin u / of_Z 2
              + (self_R self + v * fcos (u / of_Z 2)) * fcos u in
  let du_z := v * fcos (u / of_Z 2) / of_Z 2 in
  let dv_x := fcos (u / of_Z 2) * fcos u in
  let dv_y := fcos (u / of_Z 2) * fsin u in
  let dv_z := fsin (u / of_Z 2) in
  ((du_x, du_y, du_z), (dv_x, dv_y, dv_z)).

Definition cross_product (du dv : F * F * F) : F * F * F :=
  let '(du0, du1, du2) := du in
  let '(dv0, dv1, dv2) := dv in
  (du1 * dv2 - du2 * dv1,
   du2 * dv0 - du0 * dv2,
   du0 * dv1 - du1 * dv0).

(** [np.sqrt(np.sum(cross_product**2, axis=0))] in one cell. *)
Definition area_element (self : Attrs) (u v : F) : F :=
  let '(du, dv) := partial_derivatives self u v in
  let '(c0, c1, c2) := cross_product du dv in
  fsqrt (c0 * c0 + c1 * c1 + c2 * c2).

Definition area_elements (self : Attrs) : grid :=
  map2 (map2 (area_element self)) (self_U self) (self_V self).

Definition compute_surface_area (self : Attrs) : result F :=
  let area := area_elements self in
  u1 <- getitem (self_u self) 1 ;;
  u0 <- getitem (self_u self) 0 ;;
  let du := u1 - u0 in
  v1 <- getitem (self_v self) 1 ;;
  v0 <- getitem (self_v self) 0 ;;
  let dv := v1 - v0 in
  Ok (np_sum2 area * du * dv).

(** One turn of the loop of [compute_edge_length]. *)
Definition edge_step (self : Attrs) (edge_length v : F) : F :=
  let '(x, y, z) := parametric_equations_vec self (self_u self) v in
  let dx := np_diff x in
  let dy := np_diff y in
  let dz := np_diff z in
  let segment_lengths :=
    map3 (fun a b c => fsqrt (a * a + b * b + c * c)) dx dy dz in
  edge_length + np_sum segment_lengths.

Definition compute_edge_length (self : Attrs) : F :=
  fold_left (edge_step self)
    [self_w self / of_Z 2; - self_w self / of_Z 2] (of_Z 0).

(** The assignments of [__init__] that precede the method calls. *)
Definition init_attrs (R_ w : F) (n : Z) : result Attrs :=
  u <- linspace (of_Z 0) (of_Z 2 * fpi) n ;;
  v <- linspace (- w / of_Z 2) (w / of_Z 2) n ;;
  let '(U, V) := meshgrid u v in
  Ok (mkAttrs R_ w n u v U V).

(** [MobiusStrip(R, w, n)]. *)
Definition __init__ (R_ w : F) (n : Z) : result MobiusStrip :=
  self <- init_attrs R_ w n ;;
  let m := compute_mesh self in
  a <- compute_surface_area self ;;
  let e := compute_edge_length self in
  Ok (mkMobiusStrip self m a e).

(** *** Vocabulary of the statements *)

(** The cell in row [i] and column [j] of a grid, when there is one. *)
Definition cell (g : grid) (i j : nat) : option F :=
  match nth_error g i with
  | Some row => nth_error row j
  | None => None
  end.

(** The point in row [i] and column [j] of a mesh, when there is one. *)
Definition mesh_cell (m : grid * grid * grid) (i j : nat) : option (F * F * F) :=
  let '(x, y, z) := m in
  match cell x i j, cell y i j, cell z i j with
  | Some a, Some b, Some c => Some (a, b, c)
  | _, _, _ => None
  end.

(** A grid of [r] rows that all have [c] cells. *)
Definition has_shape (g : grid) (r c : nat) : Prop :=
  length g = r /\ Forall (fun row => length row = c) g.

(** The three coordinates of the half-twist embedding for ring radius
    [R_]. *)
Definition mobius_x (R_ u v : F) : F :=
  (R_ + v * fcos (u / of_Z 2)) * fcos u.

Definition mobius_y (R_ u v : F) : F :=
  (R_ + v * fcos (u / of_Z 2)) * fsin u.

Definition mobius_z (u v : F) : F :=
  v * fsin (u / of_Z 2).

(** The object with every value of its [v] grid negated: [self.v] is
    replaced and [self.U], [self.V] are rebuilt from it as [__init__] builds
    them. *)
Definition flip_v (self : Attrs) : Attrs :=
  let v' := map fneg (self_v self) in
  mkAttrs (self_R self) (self_w self) (self_n self) (self_u self) v'
    (fst (meshgrid (self_u self) v')) (snd (meshgrid (self_u self) v')).

End Program.

(** ** The object as a store

    [__init__] fills the attribute dictionary of [self] one assignment at a
    time, and every method reads its operands back from that dictionary.
    Here the dictionary is explicit: the ten attributes of the class, each
    present or absent.  Reading an absent attribute raises
    [AttributeError].  A method first looks up the attributes it reads, in
    the order the source reads them, and then computes as above on the
    values found. *)

Inductive attr : Type :=
| a_R | a_w | a_n | a_u | a_v | a_U | a_V
| a_mesh | a_surface_area | a_edge_length.

Inductive py_exn : Type :=
| AttributeError (name : attr)
| Raised (e : exn).

Inductive outcome (A : Type) : Type :=
| Done (a : A)
| Fail (e : py_exn).

Arguments Done {A} a.
Arguments Fail {A} e.

Definition and_then {A B : Type} (m : outcome A) (k : A -> outcome B)
  : outcome B :=
  match m with
  | Done a => k a
  | Fail e => Fail e
  end.

Notation "x <~ m ;; k" := (and_then m (fun x => k))
  (at level 61, m at next level, right associativity).

Definition lift {A : Type} (r : result A) : outcome A :=
  match r with
  | Ok a => Done a
  | Raise e => Fail (Raised e)
  end.

Definition getattr {A : Type} (name : attr) (field : option A) : outcome A :=
  match field with
  | Some x => Done x
  | None => Fail (AttributeError name)
  end.

Definition or_default {A : Type} (d : A) (field : option A) : A :=
  match field with
  | Some x => x
  | None => d
  end.

Section Store.

Context {F : Type} `{Float F}.
Local Open Scope np_scope.
Local Abbreviation grid := (@grid F).

Record Object : Type := mkObject {
  dict_R : option F;
  dict_w : option F;
  dict_n : option Z;
  dict_u : option (list F);
  dict_v : option (list F);
  dict_U : option grid;
  dict_V : option grid;
  dict_mesh : option (grid * grid * grid);
  dict_surface_area : option F;
  dict_edge_length : option F
}.

(** A new object: no attribute yet. *)
Definition empty_object : Object :=
  mkObject None None None None None None None None None None.











(** The values the methods compute on.  An absent attribute has no value;
    the place is filled, and a method never gets that far: it has raised
    [AttributeError] at the lookup. *)
Definition snapshot (self : Object) : Attrs :=
  mkAttrs (or_default (of_Z 0) (dict_R self))
    (or_default (of_Z 0) (dict_w self))
    (or_default 0%Z (dict_n self))
    (or_default [] (dict_u self))
    (or_default [] (dict_v self))
    (or_default [] (dict_U self))
    (or_default [] (dict_V self)).

(** [self.compute_mesh()]: reads [self.U], [self.V] (line 48), then
    [self.R] in [parametric_equations] (line 36). *)
Definition obj_compute_mesh (self : Object) : outcome (grid * grid * grid) :=
  _ <~ getattr a_U (dict_U self) ;;
  _ <~ getattr a_V (dict_V self) ;;
  _ <~ getattr a_R (dict_R self) ;;
  Done (compute_mesh (snapshot self)).

(** [self.compute_surface_area()]: reads [self.U], [self.V] (line 75) and
    [self.R] (line 62), then [self.u] for [u[1]] and [u[0]] (line 84), then
    [self.v] (line 85). *)
Definition obj_compute_surface_area (self : Object) : outcome F :=
  _ <~ getattr a_U (dict_U self) ;;
  _ <~ getattr a_V (dict_V self) ;;
  _ <~ getattr a_R (dict_R self) ;;
  u <~ getattr a_u (dict_u self) ;;
  _ <~ lift (getitem u 1) ;;
  _ <~ lift (getitem u 0) ;;
  _ <~ getattr a_v (dict_v self) ;;
  lift (compute_surface_area (snapshot self)).

(** [self.compute_edge_length()]: reads [self.w] (line 98), then [self.u]
    (line 99) and [self.R] (line 36). *)
Definition obj_compute_edge_length (self : Object) : outcome F :=
  _ <~ getattr a_w (dict_w self) ;;
  _ <~ getattr a_u (dict_u self) ;;
  _ <~ getattr a_R (dict_R self) ;;
  Done (compute_edge_length (snapshot self)).




End Store.

(** ** The real-number instance *)

#[export] Instance RealFloat : Float R := {|
  of_Z := IZR;
  fadd := Rplus;
  fsub := Rminus;
  fmul := Rmult;
  fdiv := Rdiv;
  fneg := Ropp;
  fsqrt := sqrt;
  fcos := cos;
  fsin := sin;
  fpi := PI;
  feqb := fun x y => if Req_dec_T x y then true else false
|}.

(** ** The binary64 instance

    IEEE 754 double precision as the kernel has it.  The two trigonometric
    functions are not kernel primitives and stay arguments of the instance.
    The conversion of an int is exact below 2^53. *)

Definition float_of_Z (z : Z) : float :=
  match z with
  | Z0 => 0%float
  | Zpos _ => PrimFloat.of_uint63 (Uint63.of_Z z)
  | Zneg p => PrimFloat.opp (PrimFloat.of_uint63 (Uint63.of_Z (Zpos p)))
  end.

Definition Binary64 (cos64 sin64 : float -> float) : Float float := {|
  of_Z := float_of_Z;
  fadd := PrimFloat.add;
  fsub := PrimFloat.sub;
  fmul := PrimFloat.mul;
  fdiv := PrimFloat.div;
  fneg := PrimFloat.opp;
  fsqrt := PrimFloat.sqrt;
  fcos := cos64;
  fsin := sin64;
  fpi := 0x1.921fb54442d18p+1%float;
  feqb := PrimFloat.eqb
|}.

(** The values of the C library's [cos] and [sin] at the four arguments a
    grid of two or three samples of [0, 2 pi] evaluates: 0, pi/2, pi and
    2 pi as binary64 numbers.  Other arguments are not tabulated. *)
Definition trig_table (x : float) : option (float * float) :=
  if PrimFloat.eqb x 0%float then
    Some (1%float, 0%float)
  else if PrimFloat.eqb x 0x1.921fb54442d18p+0%float then
    Some (0x1.1a62633145c07p-54%float, 1%float)
  else if PrimFloat.eqb x 0x1.921fb54442d18p+1%float then
    Some ((-1)%float, 0x1.1a62633145c07p-53%float)
  else if PrimFloat.eqb x 0x1.921fb54442d18p+2%float then
    Some (1%float, (-0x1.1a62633145c07p-52)%float)
  else None.

Definition cos_table (x : float) : float :=
  match trig_table x with
  | Some (c, _) => c
  | None => PrimFloat.nan
  end.

Definition sin_table (x : float) : float :=
  match trig_table x with
  | Some (_, s) => s
  | None => PrimFloat.nan
  end.

Definition Binary64_table : Float float := Binary64 cos_table sin_table.

Local Open Scope R_scope.

(** ** Vocabulary of the statements over the reals *)

(** [m] evenly spaced samples of the interval from [a] to [b], both ends
    included. *)
Definition sample (a b : R) (m k : nat) : R :=
  a + INR k * ((b - a) / (INR m - 1)).

Definition evenly_spaced (a b : R) (m : nat) : list R :=
  map (sample a b m) (seq 0 m).

(** The sum of [f 0], ..., [f (m - 1)]. *)
Fixpoint big_sum (f : nat -> R) (m : nat) : R :=
  match m with
  | O => 0
  | S k => big_sum f k + f k
  end.

Definition vec3 : Type := R * R * R.

Definition norm3 (p : vec3) : R :=
  let '(a, b, c) := p in sqrt (a ^ 2 + b ^ 2 + c ^ 2).

Definition cross3 (p q : vec3) : vec3 :=
  let '(p0, p1, p2) := p in
  let '(q0, q1, q2) := q in
  (p1 * q2 - p2 * q1, p2 * q0 - p0 * q2, p0 * q1 - p1 * q0).

(** The analytic partial derivatives of the embedding. *)
Definition d_du (R_ u v : R) : vec3 :=
  (- v * sin (u / 2) * cos u / 2 - (R_ + v * cos (u / 2)) * sin u,
   - v * sin (u / 2) * sin u / 2 + (R_ + v * cos (u / 2)) * cos u,
   v * cos (u / 2) / 2).

Definition d_dv (u : R) : vec3 :=
  (cos (u / 2) * cos u, cos (u / 2) * sin u, sin (u / 2)).

(** [d] holds the partial derivatives in [u], respectively in [v], of the
    three coordinates of the embedding at [(u, v)]. *)
Definition is_partial_u (R_ u v : R) (d : vec3) : Prop :=
  let '(dx, dy, dz) := d in
  derivable_pt_lim (fun t => mobius_x R_ t v) u dx
  /\ derivable_pt_lim (fun t => mobius_y R_ t v) u dy
  /\ derivable_pt_lim (fun t => mobius_z t v) u dz.

Definition is_partial_v (R_ u v : R) (d : vec3) : Prop :=
  let '(dx, dy, dz) := d in
  derivable_pt_lim (fun t => mobius_x R_ u t) v dx
  /\ derivable_pt_lim (fun t => mobius_y R_ u t) v dy
  /\ derivable_pt_lim (fun t => mobius_z u t) v dz.

(** The plain Riemann sum of the area element over the [m] by [m] grid. *)
Definition riemann_area (R_ w : R) (m : nat) : R :=
  big_sum (fun i =>
    big_sum (fun j =>
      norm3 (cross3 (d_du R_ (sample 0 (2 * PI) m j)
                              (sample (- w / 2) (w / 2) m i))
                    (d_dv (sample 0 (2 * PI) m j)))) m) m
  * (2 * PI / (INR m - 1)) * (w / (INR m - 1)).

(** Euclidean distance, and the length of the polyline through a list of
    points. *)
Definition dist3 (p q : vec3) : R :=
  let '(px, py, pz) := p in
  let '(qx, qy, qz) := q in
  sqrt ((qx - px) ^ 2 + (qy - py) ^ 2 + (qz - pz) ^ 2).

Fixpoint polyline_length (pts : list vec3) : R :=
  match pts with
  | p :: (q :: _) as rest => dist3 p q + polyline_length rest
  | _ => 0
  end.

(** The boundary curve at [v]: the embedding at the [m] samples of [u]. *)
Definition boundary_points (R_ : R) (m : nat) (v : R) : list vec3 :=
  map (fun j =>
         let u := sample 0 (2 * PI) m j in
         (mobius_x R_ u v, mobius_y R_ u v, mobius_z u v))
      (seq 0 m).

(** The rotation by a half turn about the x axis. *)
Definition half_turn (p : vec3) : vec3 :=
  let '(x, y, z) := p in (x, - y, - z).

(** The attributes of the object in closed form. *)
Definition sampled_attrs (R_ w : R) (n : Z) : Attrs :=
  let u := evenly_spaced 0 (2 * PI) (Z.to_nat n) in
  let v := evenly_spaced (- w / 2) (w / 2) (Z.to_nat n) in
  mkAttrs R_ w n u v (fst (meshgrid u v)) (snd (meshgrid u v)).

(** ** Facts that hold for every arithmetic *)

Section Shape.

Context {F : Type} `{Float F}.
Local Open Scope nat_scope.
Local Open Scope np_scope.

Lemma nth_error_map2 {A B C : Type} (f : A -> B -> C) l l' i :
  nth_error (map2 f l l') i = option_map2 f (nth_error l i) (nth_error l' i).
Proof.
  revert l' i; induction l as [|a l IH]; intros [|b l'] [|i]; simpl; auto.
  destruct (nth_error l i); reflexivity.
Qed.

Lemma cell_map2 (f : F -> F -> F) (U V : grid) i j :
  cell (map2 (map2 f) U V) i j = option_map2 f (cell U i j) (cell V i j).
Proof.
  unfold cell. rewrite nth_error_map2.
  destruct (nth_error U i) as [ru|], (nth_error V i) as [rv|]; simpl; auto.
  - apply nth_error_map2.
  - destruct (nth_error ru j); reflexivity.
Qed.

(** On the grids of [meshgrid], a cell-by-cell operation is a double loop:
    rows run over [v], columns over [u]. *)
Lemma map2_const_r {A B C : Type} (f : A -> B -> C) (u : list A) (b : B) :
  map2 f u (map (fun _ => b) u) = map (fun a => f a b) u.
Proof. induction u; simpl; congruence. Qed.

Lemma map2_meshgrid (f : F -> F -> F) (u v : list F) :
  map2 (map2 f) (fst (meshgrid u v)) (snd (meshgrid u v))
  = map (fun vi => map (fun uj => f uj vi) u) v.
Proof.
  unfold meshgrid; simpl. induction v as [|vi v IH]; simpl; [reflexivity|].
  now rewrite map2_const_r, IH.
Qed.

Lemma length_set_last (y : list F) (stop : F) :
  y <> [] -> length (set_last y stop) = length y.
Proof.
  intros Hy. unfold set_last.
  rewrite length_app, removelast_firstn_len, length_firstn. simpl.
  destruct y; [congruence | simpl; lia].
Qed.

Lemma length_arange (num : Z) : length (arange num) = Z.to_nat num.
Proof. unfold arange. now rewrite length_map, length_seq. Qed.

Lemma linspace_negative (start stop : F) (num : Z) :
  (num < 0)%Z -> linspace start stop num = Raise ValueError.
Proof.
  intros Hn. unfold linspace.
  destruct (Z.ltb_spec num 0); [reflexivity | lia].
Qed.

Lemma linspace_length (start stop : F) (num : Z) :
  (0 <= num)%Z ->
  exists y, linspace start stop num = Ok y /\ length y = Z.to_nat num.
Proof.
  intros Hn. unfold linspace.
  destruct (Z.ltb_spec num 0); [lia|].
  eexists; split; [reflexivity|].
  assert (Hlen : forall g g' g'' : F -> F,
    length (map (fun e => e + start)
      (if (0 <? num - 1)%Z
       then if feqb ((stop - start) / of_Z (num - 1)) (of_Z 0)
            then map g (arange num) else map g' (arange num)
       else map g'' (arange num))) = Z.to_nat num).
  { intros. rewrite length_map.
    destruct (0 <? num - 1)%Z;
      [destruct (feqb _ _)|]; now rewrite length_map, length_arange. }
  destruct (Z.ltb_spec 1 num).
  - rewrite length_set_last; [apply Hlen|].
    intros Hnil. apply (f_equal (@length F)) in Hnil.
    rewrite Hlen in Hnil. simpl in Hnil. lia.
  - apply Hlen.
Qed.

Lemma getitem_ok (a : list F) (i : nat) :
  i < length a -> exists x, getitem a i = Ok x.
Proof.
  intros Hi. unfold getitem.
  destruct (nth_error a i) eqn:E; [eauto|].
  apply nth_error_None in E. lia.
Qed.

Lemma getitem_out (a : list F) (i : nat) :
  length a <= i -> getitem a i = Raise IndexError.
Proof.
  intros Hi. unfold getitem.
  now apply nth_error_None in Hi as ->.
Qed.

(** The attributes are always assigned when [n] is not negative, and the grids
    then have [n] entries. *)
Lemma init_attrs_ok (R_ w : F) (n : Z) :
  (0 <= n)%Z ->
  exists self, init_attrs R_ w n = Ok self
    /\ length (self_u self) = Z.to_nat n
    /\ length (self_v self) = Z.to_nat n.
Proof.
  intros Hn. unfold init_attrs.
  destruct (linspace_length (of_Z 0) (of_Z 2 * fpi) n Hn) as (u & -> & Hu).
  destruct (linspace_length (- w / of_Z 2) (w / of_Z 2) n Hn) as (v & -> & Hv).
  simpl. eauto.
Qed.

Lemma compute_surface_area_ok (self : Attrs) :
  2 <= length (self_u self) -> 2 <= length (self_v self) ->
  exists a, compute_surface_area self = Ok a.
Proof.
  intros Hu Hv. unfold compute_surface_area.
  destruct (getitem_ok (self_u self) 1) as [u1 ->]; [lia|].
  destruct (getitem_ok (self_u self) 0) as [u0 ->]; [lia|].
  destruct (getitem_ok (self_v self) 1) as [v1 ->]; [lia|].
  destruct (getitem_ok (self_v self) 0) as [v0 ->]; [lia|].
  simpl. eauto.
Qed.

Lemma compute_surface_area_short (self : Attrs) :
  length (self_u self) <= 1 -> compute_surface_area self = Raise IndexError.
Proof.
  intros Hu. unfold compute_surface_area.
  now rewrite (getitem_out (self_u self) 1 Hu).
Qed.

Lemma init_completes (R_ w : F) (n : Z) :
  (2 <= n)%Z ->
  exists self a,
    init_attrs R_ w n = Ok self /\ compute_surface_area self = Ok a
    /\ __init__ R_ w n
       = Ok (mkMobiusStrip self (compute_mesh self) a
               (compute_edge_length self)).
Proof.
  intros Hn.
  destruct (init_attrs_ok R_ w n) as (self & Hs & Hu & Hv); [lia|].
  destruct (compute_surface_area_ok self) as [a Ha]; [lia | lia |].
  exists self, a. repeat split; trivial.
  unfold __init__. rewrite Hs. simpl. now rewrite Ha.
Qed.

Lemma init_index_error (R_ w : F) (n : Z) :
  (0 <= n < 2)%Z -> __init__ R_ w n = Raise IndexError.
Proof.
  intros Hn.
  destruct (init_attrs_ok R_ w n) as (self & Hs & Hu & Hv); [lia|].
  unfold __init__. rewrite Hs. simpl.
  rewrite compute_surface_area_short; [reflexivity | lia].
Qed.

Lemma init_value_error (R_ w : F) (n : Z) :
  (n < 0)%Z -> __init__ R_ w n = Raise ValueError.
Proof.
  intros Hn. unfold __init__, init_attrs.
  now rewrite linspace_negative.
Qed.

Lemma has_shape_meshgrid_map2 (f : F -> F -> F) (u v : list F) :
  has_shape (map2 (map2 f) (fst (meshgrid u v)) (snd (meshgrid u v)))
    (length v) (length u).
Proof.
  rewrite map2_meshgrid. split.
  - apply length_map.
  - apply Forall_map, Forall_forall. intros vi _. apply length_map.
Qed.

(** C1.  [parametric_equations] returns the triple
    x = (R + v cos(u/2)) cos u, y = (R + v cos(u/2)) sin u, z = v sin(u/2):
    at a pair of scalars, in every entry of the arrays returned for an array
    [u] and a scalar [v], and in every cell of the grids returned for two
    grids. *)
Theorem parametric_equations_formula (self : Attrs) :
  (forall u v,
     parametric_equations self u v
     = (mobius_x (self_R self) u v, mobius_y (self_R self) u v,
        mobius_z u v))
  /\ (forall u v i,
        let '(x, y, z) := parametric_equations_vec self u v in
        nth_error x i
        = option_map (fun ui => mobius_x (self_R self) ui v) (nth_error u i)
        /\ nth_error y i
          = option_map (fun ui => mobius_y (self_R self) ui v) (nth_error u i)
        /\ nth_error z i
          = option_map (fun ui => mobius_z ui v) (nth_error u i))
  /\ (forall U V i j,
        let '(x, y, z) := parametric_equations_grid self U V in
        cell x i j
        = option_map2 (mobius_x (self_R self)) (cell U i j) (cell V i j)
        /\ cell y i j
          = option_map2 (mobius_y (self_R self)) (cell U i j) (cell V i j)
        /\ cell z i j = option_map2 mobius_z (cell U i j) (cell V i j)).
Proof.
  split; [reflexivity|]. split.
  - intros u v i. unfold parametric_equations_vec.
    repeat split; apply nth_error_map.
  - intros U V i j. unfold parametric_equations_grid.
    repeat split; apply cell_map2.
Qed.

(** C5, as the code has it.  Construction completes exactly when [n >= 2],
    whatever the signs of [R] and [w]: their values go through the same
    formulas.  For [n] equal to 0 or 1 the grids are built but
    [compute_surface_area] reads [u[1]] past the end, and a negative [n] is
    refused by [linspace]. *)
Theorem init_outcome (R_ w : F) (n : Z) :
  ((2 <= n)%Z ->
     exists self a,
       init_attrs R_ w n = Ok self /\ compute_surface_area self = Ok a
       /\ __init__ R_ w n
          = Ok (mkMobiusStrip self (compute_mesh self) a
                  (compute_edge_length self)))
  /\ ((0 <= n < 2)%Z -> __init__ R_ w n = Raise IndexError)
  /\ ((n < 0)%Z -> __init__ R_ w n = Raise ValueError).
Proof.
  split; [apply init_completes|].
  split; [apply init_index_error | apply init_value_error].
Qed.

End Shape.

(** ** The embedding run on binary64

    The numpy layer computes.  The second grid below shows why the symmetry
    statements further down are about the exact operations: the rounded [v]
    grid is not symmetric about 0. *)

Example linspace_binary64 (c s : float -> float) :
  @linspace float (Binary64 c s) 0%float 1%float 5
  = Ok [0%float; 0.25%float; 0.5%float; 0.75%float; 1%float].
Proof. vm_compute. reflexivity. Qed.

Example linspace_binary64_rounded (c s : float -> float) :
  @linspace float (Binary64 c s) (-1)%float 1%float 11
  = Ok [(-1)%float;
        (-0x1.999999999999ap-1)%float;   (* -0.8 *)
        (-0x1.3333333333333p-1)%float;   (* -0.6 *)
        (-0x1.9999999999998p-2)%float;   (* -0.3999999999999999 *)
        (-0x1.9999999999998p-3)%float;   (* -0.19999999999999996 *)
        0%float;
        0x1.99999999999ap-3%float;       (* 0.20000000000000018 *)
        0x1.999999999999cp-2%float;      (* 0.40000000000000013 *)
        0x1.3333333333334p-1%float;      (* 0.6000000000000001 *)
        0x1.999999999999ap-1%float;      (* 0.8 *)
        1%float].
Proof. vm_compute. reflexivity. Qed.

Example linspace_binary64_short (c s : float -> float) :
  @linspace float (Binary64 c s) 0%float 1%float 1 = Ok [0%float]
  /\ @linspace float (Binary64 c s) 0%float 1%float 0 = Ok []
  /\ @linspace float (Binary64 c s) 0%float 1%float (-1) = Raise ValueError.
Proof. repeat split; vm_compute; reflexivity. Qed.

Example meshgrid_binary64 :
  @meshgrid float [1; 2; 3]%float [4; 5]%float
  = ([[1; 2; 3]; [1; 2; 3]]%float, [[4; 4; 4]; [5; 5; 5]]%float).
Proof. reflexivity. Qed.

Example np_diff_binary64 (c s : float -> float) :
  @np_diff float (Binary64 c s) [1; 4; 9; 16]%float = [3; 5; 7]%float.
Proof. vm_compute. reflexivity. Qed.

(** ** Facts over the reals *)

Ltac real_ops :=
  cbn [of_Z fadd fsub fmul fdiv fneg fsqrt fcos fsin fpi feqb RealFloat] in *.

Lemma fold_left_Rplus (l : list R) (acc : R) :
  fold_left Rplus l acc = acc + fold_left Rplus l 0.
Proof.
  revert acc; induction l as [|a l IH]; intros acc; simpl.
  - lra.
  - rewrite IH, (IH (0 + a)). lra.
Qed.

Lemma np_sum_nil : np_sum (@nil R) = 0.
Proof. reflexivity. Qed.

Lemma np_sum_cons (a : R) (l : list R) : np_sum (a :: l) = a + np_sum l.
Proof.
  unfold np_sum; real_ops; simpl. rewrite fold_left_Rplus. lra.
Qed.

Lemma np_sum_app (l l' : list R) : np_sum (l ++ l') = np_sum l + np_sum l'.
Proof.
  induction l as [|a l IH]; simpl.
  - rewrite np_sum_nil. lra.
  - rewrite !np_sum_cons, IH. lra.
Qed.

Lemma np_sum_map_seq (g : nat -> R) (m : nat) :
  np_sum (map g (seq 0 m)) = big_sum g m.
Proof.
  induction m as [|m IH]; [reflexivity|].
  rewrite seq_S, map_app, np_sum_app, IH. simpl.
  rewrite np_sum_cons, np_sum_nil. lra.
Qed.

Lemma np_sum2_rows {A : Type} (row : A -> list R) (l : list A) :
  np_sum2 (map row l) = np_sum (map (fun a => np_sum (row a)) l).
Proof.
  unfold np_sum2. induction l as [|a l IH]; simpl; [reflexivity|].
  now rewrite np_sum_app, np_sum_cons, IH.
Qed.

Lemma big_sum_ext (f g : nat -> R) (m : nat) :
  (forall k, (k < m)%nat -> f k = g k) -> big_sum f m = big_sum g m.
Proof.
  induction m as [|m IH]; intros Hfg; simpl; [reflexivity|].
  rewrite IH, Hfg; auto.
Qed.

Lemma big_sum_shift (f : nat -> R) (m : nat) :
  big_sum f (S m) = f O + big_sum (fun k => f (S k)) m.
Proof.
  induction m as [|m IH]; simpl in *; [lra|].
  rewrite IH. lra.
Qed.

(** A sum may be read from its last term to its first. *)
Lemma big_sum_rev (f : nat -> R) (m : nat) :
  big_sum f m = big_sum (fun k => f (m - 1 - k)%nat) m.
Proof.
  induction m as [|m IH]; [reflexivity|].
  rewrite (big_sum_shift (fun k => f (S m - 1 - k)%nat)).
  change (big_sum f (S m)) with (big_sum f m + f m).
  rewrite IH. replace (S m - 1 - 0)%nat with m by lia.
  rewrite Rplus_comm. f_equal.
  apply big_sum_ext. intros k Hk. f_equal. lia.
Qed.

Lemma big_sum_nonneg (f : nat -> R) (m : nat) :
  (forall k, (k < m)%nat -> 0 <= f k) -> 0 <= big_sum f m.
Proof.
  induction m as [|m IH]; intros Hf; simpl; [lra|].
  assert (0 <= big_sum f m) by auto.
  assert (0 <= f m) by auto. lra.
Qed.

Lemma big_sum_ge_term (f : nat -> R) (m k : nat) :
  (forall j, (j < m)%nat -> 0 <= f j) -> (k < m)%nat -> f k <= big_sum f m.
Proof.
  induction m as [|m IH]; intros Hf Hk; [lia|]. simpl.
  destruct (Nat.eq_dec k m) as [->|Hne].
  - assert (0 <= big_sum f m) by (apply big_sum_nonneg; auto). lra.
  - assert (f k <= big_sum f m) by (apply IH; auto; lia).
    assert (0 <= f m) by auto. lra.
Qed.

(** *** The grids *)

Lemma sample_first (a b : R) (m : nat) : sample a b m 0 = a.
Proof. unfold sample. simpl. lra. Qed.

Lemma sample_last (a b : R) (m : nat) :
  (2 <= m)%nat -> sample a b m (m - 1) = b.
Proof.
  intros Hm. unfold sample. rewrite minus_INR by lia. simpl.
  assert (2 <= INR m) by (apply (le_INR 2); lia).
  field. lra.
Qed.

Lemma sample_step (a b : R) (m : nat) :
  sample a b m 1 - sample a b m 0 = (b - a) / (INR m - 1).
Proof. unfold sample. simpl. lra. Qed.

Lemma sample_mirror (a b : R) (m k : nat) :
  (2 <= m)%nat -> (k < m)%nat ->
  sample a b m (m - 1 - k) = a + b - sample a b m k.
Proof.
  intros Hm Hk. unfold sample. rewrite !minus_INR by lia. simpl.
  assert (2 <= INR m) by (apply (le_INR 2); lia).
  field. lra.
Qed.

Lemma length_evenly_spaced (a b : R) (m : nat) :
  length (evenly_spaced a b m) = m.
Proof. unfold evenly_spaced. now rewrite length_map, length_seq. Qed.

Lemma IZR_to_nat (n : Z) : (0 <= n)%Z -> INR (Z.to_nat n) = IZR n.
Proof. intros Hn. now rewrite INR_IZR_INZ, Z2Nat.id. Qed.

(** Over the reals [linspace] is the evenly spaced sampling: the overwritten
    last entry and the vanishing-step branch agree with the general term. *)
Lemma linspace_real (a b : R) (n : Z) :
  (2 <= n)%Z -> linspace a b n = Ok (evenly_spaced a b (Z.to_nat n)).
Proof.
  intros Hn. unfold linspace. cbv zeta.
  replace (n <? 0)%Z with false by (symmetry; apply Z.ltb_ge; lia).
  replace (0 <? n - 1)%Z with true by (symmetry; apply Z.ltb_lt; lia).
  replace (1 <? n)%Z with true by (symmetry; apply Z.ltb_lt; lia).
  f_equal. unfold arange, evenly_spaced, set_last.
  assert (Hd : IZR (n - 1) = INR (Z.to_nat n) - 1).
  { rewrite IZR_to_nat by lia. now rewrite minus_IZR. }
  assert (Hd2 : 1 <= IZR (n - 1)) by (apply IZR_le; lia).
  destruct (Z.to_nat n) as [|m] eqn:Em; [lia|].
  assert (Hm : (1 <= m)%nat) by lia.
  assert (Hall : forall g : R -> R,
    (forall k, g (IZR (Z.of_nat k)) + a = sample a b (S m) k) ->
    removelast
      (map (fun e => fadd e a)
         (map g (map (fun k => of_Z (Z.of_nat k)) (seq 0 (S m))))) ++ [b]
    = map (sample a b (S m)) (seq 0 (S m))).
  { intros g Hg. rewrite !map_map. rewrite seq_S, !map_app. simpl.
    rewrite removelast_last. f_equal.
    - apply map_ext. intros k. real_ops. apply Hg.
    - f_equal. symmetry.
      replace m with (S m - 1)%nat at 2 by lia.
      apply sample_last. lia. }
  real_ops. destruct (Req_dec_T ((b - a) / IZR (n - 1)) 0) as [Hz|Hz].
  - apply Hall. intros k. unfold sample. rewrite <- Hd, INR_IZR_INZ.
    rewrite Hz. assert (Hba : b - a = 0).
    { apply Rmult_eq_compat_r with (r := IZR (n - 1)) in Hz.
      unfold Rdiv in Hz. rewrite Rmult_assoc, Rinv_l in Hz; lra. }
    rewrite Hba. lra.
  - apply Hall. intros k. unfold sample. rewrite <- Hd, INR_IZR_INZ. lra.
Qed.

Lemma init_attrs_real (R_ w : R) (n : Z) :
  (2 <= n)%Z -> init_attrs R_ w n = Ok (sampled_attrs R_ w n).
Proof.
  intros Hn. unfold init_attrs. real_ops.
  now rewrite !linspace_real by lia.
Qed.

Lemma getitem_evenly_spaced (a b : R) (m k : nat) :
  (k < m)%nat -> getitem (evenly_spaced a b m) k = Ok (sample a b m k).
Proof.
  intros Hk. unfold getitem, evenly_spaced.
  rewrite nth_error_map, nth_error_seq.
  destruct (Nat.ltb_spec k m); [reflexivity | lia].
Qed.

(** *** The area element *)

Lemma area_element_norm (self : Attrs) (u v : R) :
  area_element self u v = norm3 (cross3 (d_du (self_R self) u v) (d_dv u)).
Proof.
  unfold area_element, partial_derivatives, cross_product, norm3, cross3,
    d_du, d_dv.
  real_ops. f_equal. ring.
Qed.

Lemma area_element_nonneg (self : Attrs) (u v : R) :
  0 <= area_element self u v.
Proof. unfold area_element; simpl. apply sqrt_pos. Qed.

Lemma np_sum2_sampled (f : R -> R -> R) (a b c d : R) (m m' : nat) :
  np_sum2
    (map (fun vi => map (fun uj => f uj vi) (evenly_spaced a b m))
       (evenly_spaced c d m'))
  = big_sum (fun i =>
      big_sum (fun j => f (sample a b m j) (sample c d m' i)) m) m'.
Proof.
  unfold evenly_spaced.
  rewrite np_sum2_rows, map_map, np_sum_map_seq.
  apply big_sum_ext. intros i _.
  now rewrite map_map, np_sum_map_seq.
Qed.

(** The value of [compute_surface_area] on the constructed object, as a
    double sum of area elements times the two spacings. *)
Lemma compute_surface_area_sampled (R_ w : R) (n : Z) :
  (2 <= n)%Z ->
  let m := Z.to_nat n in
  compute_surface_area (sampled_attrs R_ w n)
  = Ok (big_sum (fun i =>
          big_sum (fun j =>
            area_element (sampled_attrs R_ w n)
              (sample 0 (2 * PI) m j) (sample (- w / 2) (w / 2) m i)) m) m
        * ((2 * PI - 0) / (INR m - 1))
        * ((w / 2 - - w / 2) / (INR m - 1))).
Proof.
  intros Hn m. unfold compute_surface_area, area_elements.
  cbn [sampled_attrs self_u self_v self_U self_V].
  fold m. rewrite map2_meshgrid, np_sum2_sampled.
  rewrite !getitem_evenly_spaced by (unfold m; lia).
  cbn [bind]. real_ops. now rewrite !sample_step.
Qed.

Lemma Forall_map2 {A B C : Type} (P : C -> Prop) (f : A -> B -> C) l l' :
  (forall a b, P (f a b)) -> Forall P (map2 f l l').
Proof.
  intros Hf. revert l'; induction l as [|a l IH]; intros [|b l']; simpl;
    constructor; auto.
Qed.

Lemma area_elements_nonneg (self : Attrs) :
  Forall (Forall (fun e => 0 <= e)) (area_elements self).
Proof.
  unfold area_elements. apply Forall_map2. intros ru rv.
  apply Forall_map2. apply area_element_nonneg.
Qed.

Lemma riemann_area_eq (R_ w : R) (n : Z) :
  (2 <= n)%Z ->
  compute_surface_area (sampled_attrs R_ w n)
  = Ok (riemann_area R_ w (Z.to_nat n)).
Proof.
  intros Hn. rewrite compute_surface_area_sampled by assumption.
  unfold riemann_area.
  replace (2 * PI - 0) with (2 * PI) by lra.
  replace (w / 2 - - w / 2) with w by lra.
  do 3 f_equal.
  apply big_sum_ext; intros i _. apply big_sum_ext; intros j _.
  apply area_element_norm.
Qed.

(** The formulas of [partial_derivatives] are the derivatives of the
    mapping. *)
Lemma dpl_value (f : R -> R) (x l l' : R) :
  derivable_pt_lim f x l -> l = l' -> derivable_pt_lim f x l'.
Proof. now intros Hf <-. Qed.

Ltac derive_step :=
  first [ apply derivable_pt_lim_const | apply derivable_pt_lim_id
        | apply derivable_pt_lim_cos | apply derivable_pt_lim_sin
        | apply derivable_pt_lim_plus | apply derivable_pt_lim_mult
        | apply derivable_pt_lim_comp ].

Ltac derive :=
  eapply dpl_value;
  [ repeat derive_step
  | unfold fct_cte, comp, id, mult_fct, plus_fct, Rdiv; ring ].

Lemma d_du_partial (R_ u v : R) : is_partial_u R_ u v (d_du R_ u v).
Proof.
  unfold is_partial_u, d_du. repeat split.
  - change (fun t => mobius_x R_ t v)
      with ((fct_cte R_ + fct_cte v * comp cos (id * fct_cte (/ 2)))
            * cos)%F.
    derive.
  - change (fun t => mobius_y R_ t v)
      with ((fct_cte R_ + fct_cte v * comp cos (id * fct_cte (/ 2)))
            * sin)%F.
    derive.
  - change (fun t => mobius_z t v)
      with (fct_cte v * comp sin (id * fct_cte (/ 2)))%F.
    derive.
Qed.

Lemma d_dv_partial (R_ u v : R) : is_partial_v R_ u v (d_dv u).
Proof.
  unfold is_partial_v, d_dv. repeat split.
  - change (fun t => mobius_x R_ u t)
      with ((fct_cte R_ + id * fct_cte (cos (u / 2))) * fct_cte (cos u))%F.
    derive.
  - change (fun t => mobius_y R_ u t)
      with ((fct_cte R_ + id * fct_cte (cos (u / 2))) * fct_cte (sin u))%F.
    derive.
  - change (fun t => mobius_z u t) with (id * fct_cte (sin (u / 2)))%F.
    derive.
Qed.

(** C2.  On the constructed object [compute_surface_area] returns the plain
    Riemann sum: the magnitude of the cross product of the analytic partial
    derivatives, added up over all n x n grid points and multiplied by the
    two uniform spacings. *)
Theorem compute_surface_area_riemann (R_ w : R) (n : Z) :
  (2 <= n)%Z ->
  (exists self,
     init_attrs R_ w n = Ok self
     /\ compute_surface_area self = Ok (riemann_area R_ w (Z.to_nat n)))
  /\ (forall u v,
        is_partial_u R_ u v (d_du R_ u v) /\ is_partial_v R_ u v (d_dv u)).
Proof.
  intros Hn. split.
  - exists (sampled_attrs R_ w n).
    split; [now apply init_attrs_real | now apply riemann_area_eq].
  - intros u v. split; [apply d_du_partial | apply d_dv_partial].
Qed.

Lemma compute_surface_area_riemann_witness :
  (2 <= 100)%Z
  /\ (exists self,
        init_attrs 5 2 100 = Ok self
        /\ compute_surface_area self = Ok (riemann_area 5 2 100))
  /\ (forall u v,
        is_partial_u 5 u v (d_du 5 u v) /\ is_partial_v 5 u v (d_dv u)).
Proof.
  split; [lia | apply (compute_surface_area_riemann 5 2 100); lia].
Defined.

Lemma nth_error_evenly_spaced (a b : R) (m k : nat) :
  (k < m)%nat -> nth_error (evenly_spaced a b m) k = Some (sample a b m k).
Proof.
  intros Hk. unfold evenly_spaced. rewrite nth_error_map, nth_error_seq.
  destruct (Nat.ltb_spec k m); [reflexivity | lia].
Qed.

Lemma evenly_spaced_ends (a b : R) (m : nat) :
  (2 <= m)%nat ->
  nth_error (evenly_spaced a b m) 0 = Some a
  /\ nth_error (evenly_spaced a b m) (m - 1) = Some b.
Proof.
  intros Hm. rewrite !nth_error_evenly_spaced by lia.
  now rewrite sample_first, sample_last.
Qed.

(** C4.  The two parameter grids are the [n] evenly spaced samples of
    [0, 2 pi] and of [-w/2, w/2], ends included, each of length [n], and
    each coordinate grid of the mesh has [n] rows of [n] cells. *)
Theorem grids_and_mesh_shape (R_ w : R) (n : Z) :
  (2 <= n)%Z ->
  let m := Z.to_nat n in
  exists self,
    init_attrs R_ w n = Ok self
    /\ self_u self = evenly_spaced 0 (2 * PI) m
    /\ self_v self = evenly_spaced (- w / 2) (w / 2) m
    /\ length (self_u self) = m /\ length (self_v self) = m
    /\ nth_error (self_u self) 0 = Some 0
    /\ nth_error (self_u self) (m - 1) = Some (2 * PI)
    /\ nth_error (self_v self) 0 = Some (- w / 2)
    /\ nth_error (self_v self) (m - 1) = Some (w / 2)
    /\ let '(x, y, z) := compute_mesh self in
       has_shape x m m /\ has_shape y m m /\ has_shape z m m.
Proof.
  intros Hn m. exists (sampled_attrs R_ w n).
  assert (Hm : (2 <= m)%nat) by (unfold m; lia).
  split; [now apply init_attrs_real|].
  cbn [sampled_attrs self_u self_v]. fold m.
  destruct (evenly_spaced_ends 0 (2 * PI) m Hm) as [Hu0 Hu1].
  destruct (evenly_spaced_ends (- w / 2) (w / 2) m Hm) as [Hv0 Hv1].
  repeat (split; [first [reflexivity | assumption
                        | apply length_evenly_spaced]|]).
  unfold compute_mesh, parametric_equations_grid.
  cbn [sampled_attrs self_U self_V]. fold m.
  pose proof (fun f =>
    has_shape_meshgrid_map2 f (evenly_spaced 0 (2 * PI) m)
      (evenly_spaced (- w / 2) (w / 2) m)) as Hs.
  rewrite !length_evenly_spaced in Hs.
  repeat split; apply Hs.
Qed.

Lemma grids_and_mesh_shape_witness :
  (2 <= 100)%Z
  /\ exists self,
       init_attrs 5 2 100 = Ok self
       /\ self_u self = evenly_spaced 0 (2 * PI) 100
       /\ self_v self = evenly_spaced (- (2) / 2) (2 / 2) 100
       /\ length (self_u self) = 100%nat /\ length (self_v self) = 100%nat
       /\ nth_error (self_u self) 0 = Some 0
       /\ nth_error (self_u self) 99 = Some (2 * PI)
       /\ nth_error (self_v self) 0 = Some (- (2) / 2)
       /\ nth_error (self_v self) 99 = Some (2 / 2)
       /\ let '(x, y, z) := compute_mesh self in
          has_shape x 100 100 /\ has_shape y 100 100 /\ has_shape z 100 100.
Proof.
  split; [lia | apply (grids_and_mesh_shape 5 2 100); lia].
Defined.

(** C9, over the reals.  For [w > 0] and [n >= 2] the value of
    [compute_surface_area] is not negative: both spacings, 2 pi / (n - 1)
    and w / (n - 1), are positive and every area element is a square
    root. *)
Theorem surface_area_nonneg (R_ w : R) (n : Z) :
  0 < w -> (2 <= n)%Z ->
  exists self a u0 u1 v0 v1,
    init_attrs R_ w n = Ok self /\ compute_surface_area self = Ok a
    /\ getitem (self_u self) 0 = Ok u0 /\ getitem (self_u self) 1 = Ok u1
    /\ getitem (self_v self) 0 = Ok v0 /\ getitem (self_v self) 1 = Ok v1
    /\ u1 - u0 = 2 * PI / (IZR n - 1) /\ 0 < u1 - u0
    /\ v1 - v0 = w / (IZR n - 1) /\ 0 < v1 - v0
    /\ Forall (Forall (fun e => 0 <= e)) (area_elements self)
    /\ 0 <= a.
Proof.
  intros Hw Hn.
  set (m := Z.to_nat n).
  assert (Hm : (2 <= m)%nat) by (unfold m; lia).
  assert (HI : INR m = IZR n) by (apply IZR_to_nat; lia).
  assert (H2 : 2 <= IZR n) by (apply IZR_le; lia).
  pose proof PI_RGT_0 as Hpi.
  assert (Hinv : 0 < / (IZR n - 1)) by (apply Rinv_0_lt_compat; lra).
  exists (sampled_attrs R_ w n).
  eexists. exists (sample 0 (2 * PI) m 0), (sample 0 (2 * PI) m 1),
    (sample (- w / 2) (w / 2) m 0), (sample (- w / 2) (w / 2) m 1).
  split; [now apply init_attrs_real|].
  split; [now apply compute_surface_area_sampled|].
  cbn [sampled_attrs self_u self_v]. fold m.
  rewrite !getitem_evenly_spaced by lia.
  rewrite !sample_step, HI.
  repeat (split; [reflexivity|]).
  assert (Hdu : 0 < 2 * PI / (IZR n - 1)).
  { unfold Rdiv. apply Rmult_lt_0_compat; lra. }
  assert (Hdv : 0 < w / (IZR n - 1)).
  { unfold Rdiv. apply Rmult_lt_0_compat; lra. }
  split; [unfold Rdiv; f_equal; lra|].
  split; [replace (2 * PI - 0) with (2 * PI) by lra; exact Hdu|].
  split; [unfold Rdiv; f_equal; lra|].
  split; [replace (w / 2 - - w / 2) with w by lra; exact Hdv|].
  split; [apply area_elements_nonneg|].
  replace (2 * PI - 0) with (2 * PI) by lra.
  replace (w / 2 - - w / 2) with w by lra.
  apply Rmult_le_pos; [apply Rmult_le_pos|]; try lra.
  apply big_sum_nonneg; intros i _. apply big_sum_nonneg; intros j _.
  apply area_element_nonneg.
Qed.

Lemma surface_area_nonneg_witness :
  0 < 2 /\ (2 <= 100)%Z
  /\ exists self a u0 u1 v0 v1,
       init_attrs 5 2 100 = Ok self /\ compute_surface_area self = Ok a
       /\ getitem (self_u self) 0 = Ok u0 /\ getitem (self_u self) 1 = Ok u1
       /\ getitem (self_v self) 0 = Ok v0 /\ getitem (self_v self) 1 = Ok v1
       /\ u1 - u0 = 2 * PI / (100 - 1) /\ 0 < u1 - u0
       /\ v1 - v0 = 2 / (100 - 1) /\ 0 < v1 - v0
       /\ Forall (Forall (fun e => 0 <= e)) (area_elements self)
       /\ 0 <= a.
Proof.
  split; [lra|]. split; [lia|].
  apply (surface_area_nonneg 5 2 100); [lra | lia].
Defined.

(** *** The seam and the two mirror symmetries *)

Lemma cos_half_mirror (u : R) : cos ((2 * PI - u) / 2) = - cos (u / 2).
Proof.
  replace ((2 * PI - u) / 2) with (PI - u / 2) by lra.
  rewrite cos_minus, cos_PI, sin_PI. ring.
Qed.

Lemma sin_half_mirror (u : R) : sin ((2 * PI - u) / 2) = sin (u / 2).
Proof.
  replace ((2 * PI - u) / 2) with (PI - u / 2) by lra.
  rewrite sin_minus, cos_PI, sin_PI. ring.
Qed.

Lemma cos_mirror (u : R) : cos (2 * PI - u) = cos u.
Proof. rewrite cos_minus, cos_2PI, sin_2PI. ring. Qed.

Lemma sin_mirror (u : R) : sin (2 * PI - u) = - sin u.
Proof. rewrite sin_minus, cos_2PI, sin_2PI. ring. Qed.

Ltac triple_eq := f_equal; [f_equal|]; try ring.

Lemma parametric_equations_at_0 (self : Attrs) (v : R) :
  parametric_equations self 0 v = (self_R self + v, 0, 0).
Proof.
  unfold parametric_equations. real_ops.
  replace (0 / 2) with 0 by lra. rewrite cos_0, sin_0.
  triple_eq.
Qed.

Lemma parametric_equations_at_2PI (self : Attrs) (v : R) :
  parametric_equations self (2 * PI) v = (self_R self - v, 0, 0).
Proof.
  unfold parametric_equations. real_ops.
  replace (2 * PI / 2) with PI by lra.
  rewrite cos_PI, sin_PI, cos_2PI, sin_2PI.
  triple_eq.
Qed.

(** C6, as the code has it, over the reals.  The seam glues the point at
    [(2 pi, v)] to the point at [(0, -v)]: the mapping sends [(0, v)] to
    [(R + v, 0, 0)] and [(2 pi, v)] to [(R - v, 0, 0)], so y and z agree for
    the same [v] and x agrees only on the midline. *)
Theorem seam_identification (self : Attrs) (v : R) :
  parametric_equations self (2 * PI) v = parametric_equations self 0 (- v)
  /\ parametric_equations self 0 v = (self_R self + v, 0, 0)
  /\ parametric_equations self (2 * PI) v = (self_R self - v, 0, 0)
  /\ (fst (fst (parametric_equations self (2 * PI) v))
      = fst (fst (parametric_equations self 0 v)) <-> v = 0).
Proof.
  rewrite !parametric_equations_at_0, parametric_equations_at_2PI.
  repeat split; try triple_eq; simpl; intros; lra.
Qed.

(** C6 as stated fails: on the strip of [main] (R = 5, w = 2) the boundary
    value v = 1 gives x = 6 at u = 0 and x = 4 at u = 2 pi. *)
Lemma seam_x_differs :
  - (2) / 2 <= 1 <= 2 / 2
  /\ fst (fst (parametric_equations (sampled_attrs 5 2 100) 0 1)) = 6
  /\ fst (fst (parametric_equations (sampled_attrs 5 2 100) (2 * PI) 1)) = 4
  /\ fst (fst (parametric_equations (sampled_attrs 5 2 100) 0 1))
     <> fst (fst (parametric_equations (sampled_attrs 5 2 100) (2 * PI) 1)).
Proof.
  rewrite parametric_equations_at_0, parametric_equations_at_2PI.
  cbn [sampled_attrs self_R fst]. repeat split; lra.
Qed.

Lemma area_element_mirror (self : Attrs) (u v : R) :
  area_element self (2 * PI - u) (- v) = area_element self u v.
Proof.
  unfold area_element, partial_derivatives, cross_product. real_ops.
  rewrite cos_half_mirror, sin_half_mirror, cos_mirror, sin_mirror.
  apply (f_equal sqrt). field.
Qed.

Lemma area_row_flip (self : Attrs) (m : nat) (v : R) :
  (2 <= m)%nat ->
  big_sum (fun j => area_element self (sample 0 (2 * PI) m j) (- v)) m
  = big_sum (fun j => area_element self (sample 0 (2 * PI) m j) v) m.
Proof.
  intros Hm. rewrite big_sum_rev. apply big_sum_ext. intros j Hj.
  rewrite sample_mirror by lia.
  replace (0 + 2 * PI - sample 0 (2 * PI) m j)
    with (2 * PI - sample 0 (2 * PI) m j) by lra.
  apply area_element_mirror.
Qed.

Lemma area_sum_flip (R_ w : R) (n : Z) :
  (2 <= n)%Z ->
  np_sum2 (area_elements (flip_v (sampled_attrs R_ w n)))
  = np_sum2 (area_elements (sampled_attrs R_ w n)).
Proof.
  intros Hn. unfold area_elements, flip_v.
  cbn [sampled_attrs self_R self_u self_v self_U self_V].
  rewrite !map2_meshgrid, map_map, !np_sum2_rows.
  f_equal. apply map_ext. intros vi.
  unfold evenly_spaced. rewrite !map_map, !np_sum_map_seq.
  apply (area_row_flip (sampled_attrs R_ w n)). lia.
Qed.

Lemma compute_surface_area_flip (R_ w : R) (n : Z) (a : R) :
  (2 <= n)%Z ->
  compute_surface_area (sampled_attrs R_ w n) = Ok a ->
  compute_surface_area (flip_v (sampled_attrs R_ w n)) = Ok (- a).
Proof.
  intros Hn. unfold compute_surface_area.
  rewrite area_sum_flip by assumption.
  cbn [flip_v sampled_attrs self_u self_v].
  unfold getitem. rewrite !nth_error_map.
  rewrite !nth_error_evenly_spaced by lia.
  cbn [bind option_map]. intros [= <-]. f_equal. real_ops. ring.
Qed.

(** The corner cell alone makes the sum of area elements positive. *)
Lemma area_element_corner (self : Attrs) (v : R) :
  area_element self 0 v = sqrt ((v / 2) ^ 2 + (self_R self + v) ^ 2).
Proof.
  unfold area_element, partial_derivatives, cross_product. real_ops.
  replace (0 / 2) with 0 by lra. rewrite cos_0, sin_0.
  apply (f_equal sqrt). field.
Qed.

Lemma compute_surface_area_pos (R_ w : R) (n : Z) (a : R) :
  0 < w -> (2 <= n)%Z ->
  compute_surface_area (sampled_attrs R_ w n) = Ok a -> 0 < a.
Proof.
  intros Hw Hn. rewrite compute_surface_area_sampled by assumption.
  intros [= <-].
  set (m := Z.to_nat n).
  assert (Hm : (2 <= m)%nat) by (unfold m; lia).
  assert (HI : 2 <= INR m) by (apply (le_INR 2); lia).
  pose proof PI_RGT_0 as Hpi.
  assert (Hinv : 0 < / (INR m - 1)) by (apply Rinv_0_lt_compat; lra).
  set (ae := area_element (sampled_attrs R_ w n)).
  assert (Hcorner : 0 < ae (sample 0 (2 * PI) m 0)
                            (sample (- w / 2) (w / 2) m 0)).
  { rewrite !sample_first. unfold ae. rewrite area_element_corner.
    apply sqrt_lt_R0.
    apply Rplus_lt_le_0_compat; [|apply pow2_ge_0].
    assert (Hneg : - w / 2 / 2 < 0) by lra.
    replace ((- w / 2 / 2) ^ 2) with ((- w / 2 / 2) * (- w / 2 / 2)) by ring.
    nra. }
  assert (Hrow : forall i,
    0 <= big_sum (fun j => ae (sample 0 (2 * PI) m j)
                             (sample (- w / 2) (w / 2) m i)) m).
  { intros i. apply big_sum_nonneg. intros j _. apply area_element_nonneg. }
  assert (Hsum : 0 < big_sum (fun i =>
    big_sum (fun j => ae (sample 0 (2 * PI) m j)
                        (sample (- w / 2) (w / 2) m i)) m) m).
  { eapply Rlt_le_trans; [exact Hcorner|].
    eapply Rle_trans;
      [| apply (big_sum_ge_term _ m 0%nat); [intros; apply Hrow | lia]].
    apply (big_sum_ge_term
      (fun j => ae (sample 0 (2 * PI) m j) (sample (- w / 2) (w / 2) m 0))
      m 0%nat); [|lia].
    intros j _. apply area_element_nonneg. }
  apply Rmult_lt_0_compat; [apply Rmult_lt_0_compat|]; trivial;
    unfold Rdiv; apply Rmult_lt_0_compat; lra.
Qed.

(** The negated [v] grid is the grid [__init__] builds for the width [-w]. *)
Lemma flip_v_negated_width (R_ w : R) (n : Z) :
  self_v (flip_v (sampled_attrs R_ w n)) = self_v (sampled_attrs R_ (- w) n).
Proof.
  cbn [flip_v sampled_attrs self_v]. unfold evenly_spaced.
  rewrite map_map. apply map_ext. intros k.
  unfold sample. real_ops. unfold Rdiv. ring.
Qed.

(** C7, as the code has it, over the reals.  Negating every value of the
    [v] grid leaves the sum of the area elements unchanged, but the spacing
    [v[1] - v[0]] changes sign with the grid, so the value of
    [compute_surface_area] is negated: only its magnitude is invariant. *)
Theorem surface_area_v_flip (R_ w : R) (n : Z) :
  (2 <= n)%Z ->
  exists self a,
    init_attrs R_ w n = Ok self /\ compute_surface_area self = Ok a
    /\ np_sum2 (area_elements (flip_v self)) = np_sum2 (area_elements self)
    /\ compute_surface_area (flip_v self) = Ok (- a).
Proof.
  intros Hn.
  destruct (compute_surface_area_ok (sampled_attrs R_ w n)) as [a Ha];
    try (cbn [sampled_attrs self_u self_v];
         rewrite length_evenly_spaced; lia).
  exists (sampled_attrs R_ w n), a.
  split; [now apply init_attrs_real|].
  split; [exact Ha|].
  split; [now apply area_sum_flip | now apply compute_surface_area_flip].
Qed.

Lemma surface_area_v_flip_witness :
  (2 <= 100)%Z
  /\ exists self a,
       init_attrs 5 2 100 = Ok self /\ compute_surface_area self = Ok a
       /\ np_sum2 (area_elements (flip_v self))
          = np_sum2 (area_elements self)
       /\ compute_surface_area (flip_v self) = Ok (- a).
Proof.
  split; [lia | apply (surface_area_v_flip 5 2 100); lia].
Defined.

(** C7 as stated fails: on the strip of [main] (R = 5, w = 2, n = 100) the
    surface area is positive and the flipped grid returns its opposite. *)
Lemma surface_area_v_flip_changes :
  exists self a,
    init_attrs 5 2 100 = Ok self /\ compute_surface_area self = Ok a
    /\ compute_surface_area (flip_v self) <> Ok a.
Proof.
  assert (Hn : (2 <= 100)%Z) by lia.
  destruct (compute_surface_area_ok (sampled_attrs 5 2 100)) as [a Ha];
    try (cbn [sampled_attrs self_u self_v];
         rewrite length_evenly_spaced; lia).
  exists (sampled_attrs 5 2 100), a.
  split; [now apply init_attrs_real|].
  split; [exact Ha|].
  rewrite (compute_surface_area_flip 5 2 100 a Hn Ha).
  assert (0 < a) by (apply (compute_surface_area_pos 5 2 100); trivial; lra).
  intros [= Hneg]. lra.
Qed.

(** *** The edge *)

Lemma np_diff_cons2 (a b : R) (l : list R) :
  np_diff (a :: b :: l) = (b - a) :: np_diff (b :: l).
Proof. reflexivity. Qed.

(** The three arrays of differences hold, entry by entry, the steps of the
    polyline through the sampled points. *)
Lemma segment_lengths_polyline (self : Attrs) (v : R) (u : list R) :
  np_sum
    (map3 (fun a b c => fsqrt (fadd (fadd (fmul a a) (fmul b b)) (fmul c c)))
       (np_diff (map (fun ui => fst (fst (parametric_equations self ui v))) u))
       (np_diff (map (fun ui => snd (fst (parametric_equations self ui v))) u))
       (np_diff (map (fun ui => snd (parametric_equations self ui v)) u)))
  = polyline_length (map (fun ui => parametric_equations self ui v) u).
Proof.
  induction u as [|a u IH]; [reflexivity|].
  destruct u as [|b t]; [reflexivity|].
  cbn [map] in *. rewrite !np_diff_cons2. cbn [map3].
  rewrite np_sum_cons, IH. cbn [polyline_length]. f_equal.
  unfold dist3, parametric_equations. real_ops. cbn [fst snd].
  apply (f_equal sqrt). ring.
Qed.

Lemma edge_step_polyline (self : Attrs) (acc v : R) :
  edge_step self acc v
  = acc + polyline_length
            (map (fun ui => parametric_equations self ui v) (self_u self)).
Proof.
  unfold edge_step, parametric_equations_vec.
  now rewrite segment_lengths_polyline.
Qed.

Lemma boundary_points_sampled (R_ w : R) (n : Z) (v : R) :
  map (fun ui => parametric_equations (sampled_attrs R_ w n) ui v)
    (self_u (sampled_attrs R_ w n))
  = boundary_points R_ (Z.to_nat n) v.
Proof.
  cbn [sampled_attrs self_u]. unfold evenly_spaced, boundary_points.
  now rewrite map_map.
Qed.

Lemma compute_edge_length_sampled (R_ w : R) (n : Z) :
  compute_edge_length (sampled_attrs R_ w n)
  = polyline_length (boundary_points R_ (Z.to_nat n) (w / 2))
    + polyline_length (boundary_points R_ (Z.to_nat n) (- w / 2)).
Proof.
  unfold compute_edge_length. cbn [fold_left].
  rewrite !edge_step_polyline, !boundary_points_sampled.
  real_ops. cbn [sampled_attrs self_w]. ring.
Qed.

Lemma length_boundary_points (R_ : R) (m : nat) (v : R) :
  length (boundary_points R_ m v) = m.
Proof. unfold boundary_points. now rewrite length_map, length_seq. Qed.

(** C3.  [compute_edge_length] returns the sum of two polyline lengths, one
    for the boundary at v = +w/2 and one for the boundary at v = -w/2, each
    through the images of the [n] points of the [u] grid. *)
Theorem compute_edge_length_polylines (R_ w : R) (n : Z) :
  (2 <= n)%Z ->
  let m := Z.to_nat n in
  exists self,
    init_attrs R_ w n = Ok self
    /\ length (boundary_points R_ m (w / 2)) = m
    /\ length (boundary_points R_ m (- w / 2)) = m
    /\ compute_edge_length self
       = polyline_length (boundary_points R_ m (w / 2))
         + polyline_length (boundary_points R_ m (- w / 2)).
Proof.
  intros Hn m. exists (sampled_attrs R_ w n).
  split; [now apply init_attrs_real|].
  rewrite !length_boundary_points.
  repeat split. apply compute_edge_length_sampled.
Qed.

Lemma compute_edge_length_polylines_witness :
  (2 <= 100)%Z
  /\ exists self,
       init_attrs 5 2 100 = Ok self
       /\ length (boundary_points 5 100 (2 / 2)) = 100%nat
       /\ length (boundary_points 5 100 (- (2) / 2)) = 100%nat
       /\ compute_edge_length self
          = polyline_length (boundary_points 5 100 (2 / 2))
            + polyline_length (boundary_points 5 100 (- (2) / 2)).
Proof.
  split; [lia | apply (compute_edge_length_polylines 5 2 100); lia].
Defined.

Lemma dist3_sym (p q : vec3) : dist3 p q = dist3 q p.
Proof.
  destruct p as [[px py] pz], q as [[qx qy] qz]. unfold dist3.
  apply (f_equal sqrt). ring.
Qed.

Lemma dist3_half_turn (p q : vec3) :
  dist3 (half_turn p) (half_turn q) = dist3 p q.
Proof.
  destruct p as [[px py] pz], q as [[qx qy] qz]. unfold dist3, half_turn.
  apply (f_equal sqrt). ring.
Qed.

Lemma polyline_length_half_turn (l : list vec3) :
  polyline_length (map half_turn l) = polyline_length l.
Proof.
  induction l as [|p l IH]; [reflexivity|].
  destruct l as [|q t]; [reflexivity|].
  cbn [map polyline_length] in *. now rewrite dist3_half_turn, IH.
Qed.

Lemma polyline_length_snoc (l : list vec3) (q p : vec3) :
  polyline_length (l ++ [q; p]) = polyline_length (l ++ [q]) + dist3 q p.
Proof.
  induction l as [|a l IH]; [simpl; lra|].
  destruct l as [|b t].
  - simpl. lra.
  - cbn [app polyline_length] in *. rewrite IH. lra.
Qed.

Lemma polyline_length_rev (l : list vec3) :
  polyline_length (rev l) = polyline_length l.
Proof.
  induction l as [|a l IH]; [reflexivity|].
  destruct l as [|b t]; [reflexivity|].
  cbn [rev] in *. rewrite <- app_assoc. cbn [app].
  rewrite polyline_length_snoc, IH. cbn [polyline_length].
  rewrite (dist3_sym b a). lra.
Qed.

Lemma rev_map_seq {A : Type} (f : nat -> A) (m : nat) :
  rev (map f (seq 0 m)) = map (fun j => f (m - 1 - j)%nat) (seq 0 m).
Proof.
  induction m as [|m IH]; [reflexivity|].
  rewrite seq_S at 1. rewrite map_app, rev_app_distr. cbn [map rev app].
  rewrite IH. cbn [seq map]. f_equal.
  - f_equal. lia.
  - rewrite <- seq_shift, map_map. apply map_ext. intros j. f_equal. lia.
Qed.

Lemma point_mirror (R_ u v : R) :
  (mobius_x R_ u (- v), mobius_y R_ u (- v), mobius_z u (- v))
  = half_turn
      (mobius_x R_ (2 * PI - u) v, mobius_y R_ (2 * PI - u) v,
       mobius_z (2 * PI - u) v).
Proof.
  unfold half_turn, mobius_x, mobius_y, mobius_z. real_ops.
  rewrite cos_half_mirror, sin_half_mirror, cos_mirror, sin_mirror.
  triple_eq.
Qed.

(** The lower boundary is the upper one, walked backwards and turned. *)
Lemma boundary_points_mirror (R_ : R) (m : nat) (v : R) :
  (2 <= m)%nat ->
  boundary_points R_ m (- v) = rev (map half_turn (boundary_points R_ m v)).
Proof.
  intros Hm. unfold boundary_points.
  rewrite map_map, rev_map_seq. apply map_ext_in. intros j Hj.
  apply in_seq in Hj. cbv zeta. rewrite point_mirror.
  rewrite sample_mirror by lia.
  now replace (0 + 2 * PI - sample 0 (2 * PI) m j)
    with (2 * PI - sample 0 (2 * PI) m j) by lra.
Qed.

(** C10, over the reals.  The boundary at v = -w/2 is the reversed boundary
    at v = +w/2 under the isometry (x, y, z) -> (x, -y, -z), so the two
    polylines have the same length and the edge length is twice the length
    of either. *)
Theorem boundary_polylines_equal (R_ w : R) (n : Z) :
  (2 <= n)%Z ->
  let m := Z.to_nat n in
  let upper := boundary_points R_ m (w / 2) in
  let lower := boundary_points R_ m (- w / 2) in
  exists self,
    init_attrs R_ w n = Ok self
    /\ lower = rev (map half_turn upper)
    /\ polyline_length lower = polyline_length upper
    /\ compute_edge_length self = 2 * polyline_length upper
    /\ compute_edge_length self = 2 * polyline_length lower.
Proof.
  intros Hn m upper lower. exists (sampled_attrs R_ w n).
  assert (Hm : (2 <= m)%nat) by (unfold m; lia).
  assert (Hmirror : lower = rev (map half_turn upper)).
  { unfold lower, upper. replace (- w / 2) with (- (w / 2)) by lra.
    now apply boundary_points_mirror. }
  assert (Hlen : polyline_length lower = polyline_length upper).
  { rewrite Hmirror. now rewrite polyline_length_rev, polyline_length_half_turn. }
  split; [now apply init_attrs_real|].
  split; [exact Hmirror|]. split; [exact Hlen|].
  rewrite compute_edge_length_sampled. fold m upper lower.
  split; lra.
Qed.

Lemma boundary_polylines_equal_witness :
  (2 <= 100)%Z
  /\ exists self,
       init_attrs 5 2 100 = Ok self
       /\ boundary_points 5 100 (- (2) / 2)
          = rev (map half_turn (boundary_points 5 100 (2 / 2)))
       /\ polyline_length (boundary_points 5 100 (- (2) / 2))
          = polyline_length (boundary_points 5 100 (2 / 2))
       /\ compute_edge_length self
          = 2 * polyline_length (boundary_points 5 100 (2 / 2))
       /\ compute_edge_length self
          = 2 * polyline_length (boundary_points 5 100 (- (2) / 2)).
Proof.
  split; [lia | apply (boundary_polylines_equal 5 2 100); lia].
Defined.

(** *** Construction *)

(** C5 as stated fails: with one sample per axis (R = 5, w = 2, n = 1) the
    grids are built, [compute_surface_area] reads [u[1]] and construction
    ends in [IndexError]. *)
Lemma init_degenerate_n_raises :
  (1 < 2)%Z
  /\ @__init__ R RealFloat 5 2 1 = Raise IndexError
  /\ (forall obj, @__init__ R RealFloat 5 2 1 <> Ok obj).
Proof.
  assert (He : @__init__ R RealFloat 5 2 1 = Raise IndexError)
    by (apply init_index_error; lia).
  split; [lia|]. split; [exact He|].
  intros obj. rewrite He. discriminate.
Qed.

(** ** Further properties of the constructed object *)

(** *** For every arithmetic *)

Section Mesh.

Context {F : Type} `{Float F}.
Local Open Scope nat_scope.

Lemma init_attrs_inv (R_ w : F) (n : Z) (self : Attrs) :
  init_attrs R_ w n = Ok self ->
  self_R self = R_ /\ self_w self = w
  /\ linspace (of_Z 0) (of_Z 2 * fpi)%np n = Ok (self_u self)
  /\ linspace (- w / of_Z 2)%np (w / of_Z 2)%np n = Ok (self_v self)
  /\ self_U self = fst (meshgrid (self_u self) (self_v self))
  /\ self_V self = snd (meshgrid (self_u self) (self_v self)).
Proof.
  unfold init_attrs.
  destruct (linspace (of_Z 0) _ n) as [u|]; simpl; [|discriminate].
  destruct (linspace (- w / _)%np _ n) as [v|]; simpl; [|discriminate].
  intros [= <-]. simpl. repeat split.
Qed.

Lemma cell_rows (f : F -> F -> F) (u v : list F) (i j : nat) :
  cell (map (fun vi => map (fun uj => f uj vi) u) v) i j
  = option_map2 f (nth_error u j) (nth_error v i).
Proof.
  unfold cell. rewrite nth_error_map.
  destruct (nth_error v i) as [vi|]; simpl.
  - rewrite nth_error_map. now destruct (nth_error u j).
  - now destruct (nth_error u j).
Qed.

Lemma mesh_cell_meshgrid (self : Attrs) (i j : nat) :
  self_U self = fst (meshgrid (self_u self) (self_v self)) ->
  self_V self = snd (meshgrid (self_u self) (self_v self)) ->
  mesh_cell (compute_mesh self) i j
  = option_map2 (parametric_equations self)
      (nth_error (self_u self) j) (nth_error (self_v self) i).
Proof.
  intros HU HV.
  unfold compute_mesh, parametric_equations_grid, mesh_cell.
  rewrite HU, HV, !map2_meshgrid, !cell_rows.
  destruct (nth_error (self_u self) j), (nth_error (self_v self) i);
    reflexivity.
Qed.

(** Rows of the mesh follow [v] and columns follow [u]: the point in row [i]
    and column [j] is the image of [(u[j], v[i])], and there is a point
    exactly where both entries exist. *)
Theorem compute_mesh_cell (R_ w : F) (n : Z) (self : Attrs) (i j : nat) :
  init_attrs R_ w n = Ok self ->
  mesh_cell (compute_mesh self) i j
  = option_map2 (parametric_equations self)
      (nth_error (self_u self) j) (nth_error (self_v self) i).
Proof.
  intros Hs. destruct (init_attrs_inv _ _ _ _ Hs) as (_ & _ & _ & _ & HU & HV).
  now apply mesh_cell_meshgrid.
Qed.

Lemma nth_error_set_last (y : list F) (stop : F) :
  y <> [] -> nth_error (set_last y stop) (length y - 1) = Some stop.
Proof.
  intros Hy. unfold set_last.
  assert (Hl : length (removelast y) = length y - 1).
  { rewrite removelast_firstn_len, length_firstn.
    destruct y; [congruence | simpl; lia]. }
  rewrite nth_error_app2 by lia. rewrite Hl, Nat.sub_diag. reflexivity.
Qed.

(** With at least two samples the last sample of [linspace] is [stop]
    itself, not a rounded sum. *)
Lemma linspace_last (start stop : F) (num : Z) (y : list F) :
  (2 <= num)%Z -> linspace start stop num = Ok y ->
  nth_error y (Z.to_nat num - 1) = Some stop.
Proof.
  intros Hn. unfold linspace. cbv zeta.
  replace (num <? 0)%Z with false by (symmetry; apply Z.ltb_ge; lia).
  replace (1 <? num)%Z with true by (symmetry; apply Z.ltb_lt; lia).
  intros [= <-].
  match goal with |- nth_error (set_last ?l _) _ = _ =>
    assert (Hlen : length l = Z.to_nat num) end.
  { rewrite length_map.
    destruct (0 <? num - 1)%Z;
      [destruct (feqb _ _)|]; now rewrite length_map, length_arange. }
  rewrite <- Hlen. apply nth_error_set_last.
  intros Hnil. rewrite Hnil in Hlen. simpl in Hlen. lia.
Qed.

(** The two grids end exactly on [2 * pi] and on [w / 2], in binary64 as in
    any other arithmetic. *)
Theorem grids_end_exactly (R_ w : F) (n : Z) (self : Attrs) :
  (2 <= n)%Z -> init_attrs R_ w n = Ok self ->
  nth_error (self_u self) (Z.to_nat n - 1) = Some (of_Z 2 * fpi)%np
  /\ nth_error (self_v self) (Z.to_nat n - 1) = Some (w / of_Z 2)%np.
Proof.
  intros Hn Hs.
  destruct (init_attrs_inv _ _ _ _ Hs) as (_ & _ & Hu & Hv & _).
  split; eapply linspace_last; eassumption.
Qed.

(** On an object whose [U] and [V] are the [meshgrid] of its [u] and [v],
    as [__init__] leaves them, [compute_surface_area] fails exactly when one
    of the two grids is too short to have a spacing, and then with
    [IndexError].  (On grids of shapes that cannot be combined numpy raises
    [ValueError] at line 75; such objects are excluded here.) *)
Theorem compute_surface_area_raises (self : Attrs) :
  self_U self = fst (meshgrid (self_u self) (self_v self)) ->
  self_V self = snd (meshgrid (self_u self) (self_v self)) ->
  (compute_surface_area self = Raise IndexError
   <-> length (self_u self) < 2 \/ length (self_v self) < 2)
  /\ ((exists a, compute_surface_area self = Ok a)
      <-> 2 <= length (self_u self) /\ 2 <= length (self_v self))
  /\ compute_surface_area self <> Raise ValueError.
Proof.
  intros _ _.
  assert (Hok : 2 <= length (self_u self) -> 2 <= length (self_v self) ->
                exists a, compute_surface_area self = Ok a)
    by apply compute_surface_area_ok.
  assert (Hbad : length (self_u self) < 2 \/ length (self_v self) < 2 ->
                 compute_surface_area self = Raise IndexError).
  { intros [Hu|Hv].
    - apply compute_surface_area_short. lia.
    - unfold compute_surface_area.
      destruct (getitem (self_u self) 1) as [u1|e] eqn:E1; simpl.
      + destruct (getitem (self_u self) 0) as [u0|e] eqn:E0; simpl.
        * now rewrite (getitem_out (self_v self) 1) by lia.
        * unfold getitem in E0.
          destruct (nth_error (self_u self) 0); congruence.
      + unfold getitem in E1.
        destruct (nth_error (self_u self) 1); congruence. }
  assert (Hcases : (2 <= length (self_u self) /\ 2 <= length (self_v self))
                   \/ (length (self_u self) < 2 \/ length (self_v self) < 2))
    by lia.
  split; [split | split; [split|]].
  - intros He. destruct Hcases as [[Hu Hv]|Hs]; [|exact Hs].
    destruct (Hok Hu Hv) as [a Ha]. congruence.
  - exact Hbad.
  - intros [a Ha]. destruct Hcases as [Hs|Hs]; [exact Hs|].
    rewrite (Hbad Hs) in Ha. discriminate.
  - intros [Hu Hv]. now apply Hok.
  - intros He. destruct Hcases as [[Hu Hv]|Hs].
    + destruct (Hok Hu Hv) as [a Ha]. congruence.
    + rewrite (Hbad Hs) in He. discriminate.
Qed.

(** The grids are built for every [n >= 0], also for 0 and 1, and the three
    coordinate grids of the mesh then have [n] rows of [n] cells. *)
Theorem mesh_shape_every_n (R_ w : F) (n : Z) :
  (0 <= n)%Z ->
  exists self,
    init_attrs R_ w n = Ok self
    /\ length (self_u self) = Z.to_nat n
    /\ length (self_v self) = Z.to_nat n
    /\ let '(x, y, z) := compute_mesh self in
       has_shape x (Z.to_nat n) (Z.to_nat n)
       /\ has_shape y (Z.to_nat n) (Z.to_nat n)
       /\ has_shape z (Z.to_nat n) (Z.to_nat n).
Proof.
  intros Hn.
  destruct (init_attrs_ok R_ w n Hn) as (self & Hs & Hu & Hv).
  exists self. repeat (split; [assumption|]).
  destruct (init_attrs_inv _ _ _ _ Hs) as (_ & _ & _ & _ & HU & HV).
  unfold compute_mesh, parametric_equations_grid. rewrite HU, HV.
  pose proof (fun f =>
    has_shape_meshgrid_map2 f (self_u self) (self_v self)) as Hshape.
  rewrite Hu, Hv in Hshape. repeat split; apply Hshape.
Qed.

End Mesh.

Lemma compute_mesh_cell_witness :
  init_attrs 5 2 100 = Ok (sampled_attrs 5 2 100)
  /\ mesh_cell (compute_mesh (sampled_attrs 5 2 100)) 3 7
     = option_map2 (parametric_equations (sampled_attrs 5 2 100))
         (nth_error (self_u (sampled_attrs 5 2 100)) 7)
         (nth_error (self_v (sampled_attrs 5 2 100)) 3).
Proof.
  assert (Hs : init_attrs 5 2 100 = Ok (sampled_attrs 5 2 100))
    by (apply init_attrs_real; lia).
  split; [exact Hs | exact (compute_mesh_cell 5 2 100 _ 3 7 Hs)].
Defined.

Lemma grids_end_exactly_witness :
  (2 <= 100)%Z /\ init_attrs 5 2 100 = Ok (sampled_attrs 5 2 100)
  /\ nth_error (self_u (sampled_attrs 5 2 100)) (Z.to_nat 100 - 1)
     = Some (2 * PI)
  /\ nth_error (self_v (sampled_attrs 5 2 100)) (Z.to_nat 100 - 1)
     = Some (2 / 2).
Proof.
  assert (Hn : (2 <= 100)%Z) by lia.
  assert (Hs : init_attrs 5 2 100 = Ok (sampled_attrs 5 2 100))
    by (apply init_attrs_real; lia).
  split; [exact Hn|]. split; [exact Hs|].
  exact (grids_end_exactly 5 2 100 _ Hn Hs).
Defined.

Lemma mesh_shape_every_n_witness :
  (0 <= 1)%Z
  /\ exists self : @Attrs R,
       init_attrs 5 2 1 = Ok self
       /\ length (self_u self) = Z.to_nat 1
       /\ length (self_v self) = Z.to_nat 1
       /\ let '(x, y, z) := compute_mesh self in
          has_shape x (Z.to_nat 1) (Z.to_nat 1)
          /\ has_shape y (Z.to_nat 1) (Z.to_nat 1)
          /\ has_shape z (Z.to_nat 1) (Z.to_nat 1).
Proof.
  split; [lia | apply (mesh_shape_every_n 5 2 1); lia].
Defined.

Lemma compute_surface_area_raises_witness :
  let self := @mkAttrs R 5 2 1 [0] [-1]
                (fst (meshgrid [0] [-1])) (snd (meshgrid [0] [-1])) in
  self_U self = fst (meshgrid (self_u self) (self_v self))
  /\ self_V self = snd (meshgrid (self_u self) (self_v self))
  /\ (compute_surface_area self = Raise IndexError
      <-> (length (self_u self) < 2)%nat \/ (length (self_v self) < 2)%nat)
  /\ ((exists a, compute_surface_area self = Ok a)
      <-> (2 <= length (self_u self))%nat /\ (2 <= length (self_v self))%nat)
  /\ compute_surface_area self <> Raise ValueError.
Proof.
  cbv zeta. split; [reflexivity|]. split; [reflexivity|].
  exact (compute_surface_area_raises
           (@mkAttrs R 5 2 1 [0] [-1]
              (fst (meshgrid [0] [-1])) (snd (meshgrid [0] [-1])))
           eq_refl eq_refl).
Defined.

(** *** Over the reals: the area *)

Lemma sin_cos_1 (x : R) : sin x * sin x + cos x * cos x = 1.
Proof. pose proof (sin2_cos2 x) as Hx. unfold Rsqr in Hx. exact Hx. Qed.

(** The squared norm of the cross product, with the two circles
    [s^2 + c^2 = 1] and [S^2 + C^2 = 1] used where they occur. *)
Lemma cross_norm_identity (R_ v s c S C : R) :
  s * s + c * c = 1 -> S * S + C * C = 1 ->
  ((- v * s * S / 2 + (R_ + v * c) * C) * s - v * c / 2 * (c * S)) *
  ((- v * s * S / 2 + (R_ + v * c) * C) * s - v * c / 2 * (c * S)) +
  (v * c / 2 * (c * C) - (- v * s * C / 2 - (R_ + v * c) * S) * s) *
  (v * c / 2 * (c * C) - (- v * s * C / 2 - (R_ + v * c) * S) * s) +
  ((- v * s * C / 2 - (R_ + v * c) * S) * (c * S) -
   (- v * s * S / 2 + (R_ + v * c) * C) * (c * C)) *
  ((- v * s * C / 2 - (R_ + v * c) * S) * (c * S) -
   (- v * s * S / 2 + (R_ + v * c) * C) * (c * C))
  = (R_ + v * c) ^ 2 + (v / 2) ^ 2.
Proof.
  intros H1 H2. set (A := R_ + v * c).
  assert (E0 : (- v * s * S / 2 + A * C) * s - v * c / 2 * (c * S)
               = - v * S / 2 + A * C * s).
  { replace ((- v * s * S / 2 + A * C) * s - v * c / 2 * (c * S))
      with (- v * S / 2 * (s * s + c * c) + A * C * s) by field.
    rewrite H1. ring. }
  assert (E1 : v * c / 2 * (c * C) - (- v * s * C / 2 - A * S) * s
               = v * C / 2 + A * S * s).
  { replace (v * c / 2 * (c * C) - (- v * s * C / 2 - A * S) * s)
      with (v * C / 2 * (s * s + c * c) + A * S * s) by field.
    rewrite H1. ring. }
  assert (E2 : (- v * s * C / 2 - A * S) * (c * S)
               - (- v * s * S / 2 + A * C) * (c * C) = - A * c).
  { replace ((- v * s * C / 2 - A * S) * (c * S)
             - (- v * s * S / 2 + A * C) * (c * C))
      with (- A * c * (S * S + C * C)) by field.
    rewrite H2. ring. }
  rewrite E0, E1, E2.
  replace ((- v * S / 2 + A * C * s) * (- v * S / 2 + A * C * s)
           + (v * C / 2 + A * S * s) * (v * C / 2 + A * S * s)
           + - A * c * (- A * c))
    with ((v / 2) ^ 2 * (S * S + C * C)
          + A ^ 2 * (s * s * (S * S + C * C) + c * c)) by field.
  rewrite H2. replace (s * s * 1 + c * c) with (s * s + c * c) by ring.
  rewrite H1. ring.
Qed.

(** The area element computed from the six partial derivatives and the
    cross product is sqrt((R + v cos(u/2))^2 + (v/2)^2). *)
Theorem area_element_closed_form (self : Attrs) (u v : R) :
  area_element self u v
  = sqrt ((self_R self + v * cos (u / 2)) ^ 2 + (v / 2) ^ 2).
Proof.
  unfold area_element, partial_derivatives, cross_product. real_ops.
  apply (f_equal sqrt).
  apply (cross_norm_identity (self_R self) v
           (sin (u / 2)) (cos (u / 2)) (sin u) (cos u)); apply sin_cos_1.
Qed.

Lemma area_sum_pos (R_ w : R) (n : Z) :
  w <> 0 -> (2 <= n)%Z ->
  let m := Z.to_nat n in
  0 < big_sum (fun i =>
        big_sum (fun j =>
          area_element (sampled_attrs R_ w n)
            (sample 0 (2 * PI) m j) (sample (- w / 2) (w / 2) m i)) m) m.
Proof.
  intros Hw Hn m.
  assert (Hm : (2 <= m)%nat) by (unfold m; lia).
  set (ae := area_element (sampled_attrs R_ w n)).
  assert (Hcorner : 0 < ae (sample 0 (2 * PI) m 0)
                            (sample (- w / 2) (w / 2) m 0)).
  { rewrite !sample_first. unfold ae. rewrite area_element_corner.
    apply sqrt_lt_R0.
    apply Rplus_lt_le_0_compat; [|apply pow2_ge_0].
    assert (Hne : - w / 2 / 2 <> 0) by lra.
    replace ((- w / 2 / 2) ^ 2) with ((- w / 2 / 2) * (- w / 2 / 2)) by ring.
    destruct (Rtotal_order (- w / 2 / 2) 0) as [Hlt|[Heq|Hgt]]; [|lra|];
      nra. }
  eapply Rlt_le_trans; [exact Hcorner|].
  eapply Rle_trans;
    [| apply (big_sum_ge_term _ m 0%nat);
       [intros; apply big_sum_nonneg; intros; apply area_element_nonneg
       | lia]].
  apply (big_sum_ge_term
    (fun j => ae (sample 0 (2 * PI) m j) (sample (- w / 2) (w / 2) m 0))
    m 0%nat); [|lia].
  intros j _. apply area_element_nonneg.
Qed.

(** The surface area has the sign of the width: positive for [w > 0], zero
    for [w = 0], negative for [w < 0]. *)
Theorem surface_area_sign (R_ w : R) (n : Z) :
  (2 <= n)%Z ->
  exists self a,
    init_attrs R_ w n = Ok self /\ compute_surface_area self = Ok a
    /\ (0 < w -> 0 < a) /\ (w = 0 -> a = 0) /\ (w < 0 -> a < 0).
Proof.
  intros Hn. exists (sampled_attrs R_ w n). eexists.
  split; [now apply init_attrs_real|].
  split; [now apply compute_surface_area_sampled|].
  set (m := Z.to_nat n).
  assert (HI : 2 <= INR m) by (apply (le_INR 2); unfold m; lia).
  pose proof PI_RGT_0 as Hpi.
  assert (Hinv : 0 < / (INR m - 1)) by (apply Rinv_0_lt_compat; lra).
  assert (Hdu : 0 < (2 * PI - 0) / (INR m - 1))
    by (unfold Rdiv; apply Rmult_lt_0_compat; lra).
  replace (w / 2 - - w / 2) with w by lra.
  split; [|split].
  - intros Hw.
    pose proof (area_sum_pos R_ w n (Rgt_not_eq _ _ Hw) Hn) as Hsum.
    cbv zeta in Hsum. fold m in Hsum.
    apply Rmult_lt_0_compat; [apply Rmult_lt_0_compat|]; trivial.
    unfold Rdiv. apply Rmult_lt_0_compat; lra.
  - intros ->. unfold Rdiv. ring.
  - intros Hw.
    pose proof (area_sum_pos R_ w n (Rlt_not_eq _ _ Hw) Hn) as Hsum.
    cbv zeta in Hsum. fold m in Hsum.
    assert (Hdv : w / (INR m - 1) < 0).
    { unfold Rdiv. rewrite <- (Rmult_0_l (/ (INR m - 1))).
      apply Rmult_lt_compat_r; lra. }
    assert (Hpos : 0 < big_sum (fun i =>
        big_sum (fun j =>
          area_element (sampled_attrs R_ w n)
            (sample 0 (2 * PI) m j) (sample (- w / 2) (w / 2) m i)) m) m
        * ((2 * PI - 0) / (INR m - 1)))
      by (apply Rmult_lt_0_compat; trivial).
    nra.
Qed.

Lemma surface_area_sign_witness :
  (2 <= 100)%Z
  /\ exists self a,
       init_attrs 5 (-2) 100 = Ok self /\ compute_surface_area self = Ok a
       /\ (0 < -2 -> 0 < a) /\ (-2 = 0 -> a = 0) /\ (-2 < 0 -> a < 0).
Proof.
  split; [lia | apply (surface_area_sign 5 (-2) 100); lia].
Defined.

(** *** Over the reals: the width *)

Lemma init_real (R_ w : R) (n : Z) :
  (2 <= n)%Z ->
  exists a,
    compute_surface_area (sampled_attrs R_ w n) = Ok a
    /\ __init__ R_ w n
       = Ok (mkMobiusStrip (sampled_attrs R_ w n)
               (compute_mesh (sampled_attrs R_ w n)) a
               (compute_edge_length (sampled_attrs R_ w n))).
Proof.
  intros Hn.
  destruct (init_completes R_ w n Hn) as (self & a & Hs & Ha & Hi).
  rewrite init_attrs_real in Hs by assumption.
  injection Hs as <-. eauto.
Qed.

Lemma compute_surface_area_neg_width (R_ w : R) (n : Z) :
  compute_surface_area (sampled_attrs R_ (- w) n)
  = compute_surface_area (flip_v (sampled_attrs R_ w n)).
Proof.
  pose proof (flip_v_negated_width R_ w n) as E.
  unfold compute_surface_area, area_elements.
  cbn [flip_v sampled_attrs self_R self_u self_v self_U self_V] in *.
  rewrite E. reflexivity.
Qed.

Lemma compute_edge_length_neg_width (R_ w : R) (n : Z) :
  compute_edge_length (sampled_attrs R_ (- w) n)
  = compute_edge_length (sampled_attrs R_ w n).
Proof.
  rewrite !compute_edge_length_sampled.
  replace (- - w / 2) with (w / 2) by lra.
  replace (- w / 2) with (- (w / 2)) by lra. lra.
Qed.

(** Constructing with the width [-w] instead of [w] negates the surface
    area and leaves the edge length unchanged. *)
Theorem negated_width (R_ w : R) (n : Z) :
  (2 <= n)%Z ->
  exists o1 o2,
    __init__ R_ w n = Ok o1 /\ __init__ R_ (- w) n = Ok o2
    /\ surface_area o2 = - surface_area o1
    /\ edge_length o2 = edge_length o1.
Proof.
  intros Hn.
  destruct (init_real R_ w n Hn) as (a & Ha & Hi).
  destruct (init_real R_ (- w) n Hn) as (a' & Ha' & Hi').
  do 2 eexists. split; [exact Hi|]. split; [exact Hi'|].
  cbn [surface_area edge_length]. split.
  - rewrite compute_surface_area_neg_width in Ha'.
    rewrite (compute_surface_area_flip R_ w n a Hn Ha) in Ha'.
    congruence.
  - apply compute_edge_length_neg_width.
Qed.

Lemma negated_width_witness :
  (2 <= 100)%Z
  /\ exists o1 o2,
       __init__ 5 2 100 = Ok o1 /\ __init__ 5 (- (2)) 100 = Ok o2
       /\ surface_area o2 = - surface_area o1
       /\ edge_length o2 = edge_length o1.
Proof.
  split; [lia | apply (negated_width 5 2 100); lia].
Defined.

(** Every point of the mapping lies at distance [|v|] from the point of the
    centre circle with the same [u]. *)
Theorem distance_from_centre_circle (self : Attrs) (u v : R) :
  dist3 (self_R self * cos u, self_R self * sin u, 0)
    (parametric_equations self u v)
  = Rabs v.
Proof.
  unfold dist3, parametric_equations. real_ops.
  rewrite <- sqrt_Rsqr_abs. apply (f_equal sqrt). unfold Rsqr.
  pose proof (sin_cos_1 u) as H1. pose proof (sin_cos_1 (u / 2)) as H2.
  set (s := sin (u / 2)) in *. set (c := cos (u / 2)) in *.
  set (S := sin u) in *. set (C := cos u) in *.
  replace (((self_R self + v * c) * C - self_R self * C) ^ 2
           + ((self_R self + v * c) * S - self_R self * S) ^ 2
           + (v * s - 0) ^ 2)
    with (v * v * (c * c * (S * S + C * C) + s * s)) by ring.
  rewrite H1. replace (c * c * 1 + s * s) with (s * s + c * c) by ring.
  rewrite H2. ring.
Qed.

(** Across the strip, the two boundary points with the same [u] are [|w|]
    apart: the strip is as wide as requested everywhere. *)
Theorem strip_width (self : Attrs) (u : R) :
  dist3 (parametric_equations self u (- self_w self / 2))
    (parametric_equations self u (self_w self / 2))
  = Rabs (self_w self).
Proof.
  unfold dist3, parametric_equations. real_ops.
  rewrite <- sqrt_Rsqr_abs. apply (f_equal sqrt). unfold Rsqr.
  pose proof (sin_cos_1 u) as H1. pose proof (sin_cos_1 (u / 2)) as H2.
  set (s := sin (u / 2)) in *. set (c := cos (u / 2)) in *.
  set (S := sin u) in *. set (C := cos u) in *.
  set (w := self_w self). set (R_ := self_R self).
  replace (((R_ + w / 2 * c) * C - (R_ + - w / 2 * c) * C) ^ 2
           + ((R_ + w / 2 * c) * S - (R_ + - w / 2 * c) * S) ^ 2
           + (w / 2 * s - - w / 2 * s) ^ 2)
    with (w * w * (c * c * (S * S + C * C) + s * s)) by field.
  rewrite H1. replace (c * c * 1 + s * s) with (s * s + c * c) by ring.
  rewrite H2. ring.
Qed.

(** *** Over the reals: the edge as one closed curve *)

Lemma nth_error_curve (R_ w : R) (n : Z) (v : R) (k : nat) :
  (k < Z.to_nat n)%nat ->
  nth_error
    (map (fun ui => parametric_equations (sampled_attrs R_ w n) ui v)
       (self_u (sampled_attrs R_ w n))) k
  = Some (parametric_equations (sampled_attrs R_ w n)
            (sample 0 (2 * PI) (Z.to_nat n) k) v).
Proof.
  intros Hk. cbn [sampled_attrs self_u].
  now rewrite nth_error_map, nth_error_evenly_spaced.
Qed.

(** The upper boundary starts at [(R + w/2, 0, 0)] and ends where the lower
    one starts, at [(R - w/2, 0, 0)]; the lower one ends where the upper one
    starts.  The two sampled curves are one closed polygon. *)
Theorem boundaries_join (R_ w : R) (n : Z) :
  (2 <= n)%Z ->
  let m := Z.to_nat n in
  exists self,
    init_attrs R_ w n = Ok self
    /\ let upper :=
         map (fun ui => parametric_equations self ui (w / 2)) (self_u self) in
       let lower :=
         map (fun ui => parametric_equations self ui (- w / 2))
           (self_u self) in
       nth_error upper 0 = Some (R_ + w / 2, 0, 0)
       /\ nth_error lower 0 = Some (R_ - w / 2, 0, 0)
       /\ nth_error upper (m - 1) = nth_error lower 0
       /\ nth_error lower (m - 1) = nth_error upper 0.
Proof.
  intros Hn m. exists (sampled_attrs R_ w n).
  assert (Hm : (2 <= m)%nat) by (unfold m; lia).
  split; [now apply init_attrs_real|]. cbv zeta.
  rewrite !nth_error_curve by (fold m; lia). fold m.
  rewrite sample_first, sample_last by assumption.
  rewrite !parametric_equations_at_0, !parametric_equations_at_2PI.
  cbn [sampled_attrs self_R].
  replace (R_ + - w / 2) with (R_ - w / 2) by lra.
  replace (R_ - - w / 2) with (R_ + w / 2) by lra.
  repeat split.
Qed.

Lemma boundaries_join_witness :
  (2 <= 100)%Z
  /\ exists self,
       init_attrs 5 2 100 = Ok self
       /\ let upper :=
            map (fun ui => parametric_equations self ui (2 / 2))
              (self_u self) in
          let lower :=
            map (fun ui => parametric_equations self ui (- (2) / 2))
              (self_u self) in
          nth_error upper 0 = Some (5 + 2 / 2, 0, 0)
          /\ nth_error lower 0 = Some (5 - 2 / 2, 0, 0)
          /\ nth_error upper (Z.to_nat 100 - 1) = nth_error lower 0
          /\ nth_error lower (Z.to_nat 100 - 1) = nth_error upper 0.
Proof.
  split; [lia | apply (boundaries_join 5 2 100); lia].
Defined.

Lemma norm_triangle (x1 x2 x3 y1 y2 y3 : R) :
  sqrt ((x1 + y1) ^ 2 + (x2 + y2) ^ 2 + (x3 + y3) ^ 2)
  <= sqrt (x1 ^ 2 + x2 ^ 2 + x3 ^ 2) + sqrt (y1 ^ 2 + y2 ^ 2 + y3 ^ 2).
Proof.
  set (X := x1 ^ 2 + x2 ^ 2 + x3 ^ 2).
  set (Y := y1 ^ 2 + y2 ^ 2 + y3 ^ 2).
  set (d := x1 * y1 + x2 * y2 + x3 * y3).
  assert (HX : 0 <= X) by (unfold X; nra).
  assert (HY : 0 <= Y) by (unfold Y; nra).
  assert (HCS : d * d <= X * Y).
  { assert (E : X * Y - d * d
                = (x1 * y2 - x2 * y1) ^ 2 + (x1 * y3 - x3 * y1) ^ 2
                  + (x2 * y3 - x3 * y2) ^ 2) by (unfold X, Y, d; ring).
    assert (0 <= X * Y - d * d)
      by (rewrite E; repeat apply Rplus_le_le_0_compat; apply pow2_ge_0).
    lra. }
  pose proof (sqrt_pos X) as HsX. pose proof (sqrt_pos Y) as HsY.
  pose proof (sqrt_sqrt X HX) as EX. pose proof (sqrt_sqrt Y HY) as EY.
  assert (Hd : d <= sqrt X * sqrt Y).
  { destruct (Rle_dec d 0) as [Hd0|Hd0]; [nra|].
    apply Rnot_le_lt in Hd0.
    apply Rsqr_incr_0_var; [|nra].
    unfold Rsqr.
    replace (sqrt X * sqrt Y * (sqrt X * sqrt Y))
      with ((sqrt X * sqrt X) * (sqrt Y * sqrt Y)) by ring.
    now rewrite EX, EY. }
  apply Rsqr_incr_0_var; [|lra].
  rewrite Rsqr_sqrt
    by (repeat apply Rplus_le_le_0_compat; apply pow2_ge_0).
  replace ((x1 + y1) ^ 2 + (x2 + y2) ^ 2 + (x3 + y3) ^ 2)
    with (X + Y + 2 * d) by (unfold X, Y, d; ring).
  unfold Rsqr.
  replace ((sqrt X + sqrt Y) * (sqrt X + sqrt Y))
    with (sqrt X * sqrt X + sqrt Y * sqrt Y + 2 * (sqrt X * sqrt Y)) by ring.
  rewrite EX, EY. lra.
Qed.

Lemma dist3_triangle (p q r : vec3) : dist3 p r <= dist3 p q + dist3 q r.
Proof.
  destruct p as [[p1 p2] p3], q as [[q1 q2] q3], r as [[r1 r2] r3].
  unfold dist3.
  replace (r1 - p1) with ((q1 - p1) + (r1 - q1)) by ring.
  replace (r2 - p2) with ((q2 - p2) + (r2 - q2)) by ring.
  replace (r3 - p3) with ((q3 - p3) + (r3 - q3)) by ring.
  apply norm_triangle.
Qed.

Lemma dist3_refl (p : vec3) : dist3 p p = 0.
Proof.
  destruct p as [[p1 p2] p3]. unfold dist3.
  replace ((p1 - p1) ^ 2 + (p2 - p2) ^ 2 + (p3 - p3) ^ 2) with 0 by ring.
  apply sqrt_0.
Qed.

(** A polyline is at least as long as the segment between its ends. *)
Lemma polyline_length_chord (P : nat -> vec3) (k : nat) :
  dist3 (P 0%nat) (P k) <= polyline_length (map P (seq 0 (S k))).
Proof.
  induction k as [|k IH].
  - rewrite dist3_refl. simpl. lra.
  - rewrite seq_S, map_app. rewrite (seq_S k 0), map_app, <- app_assoc.
    cbn [map app plus]. rewrite polyline_length_snoc.
    rewrite (seq_S k 0), map_app in IH. cbn [map plus] in IH.
    pose proof (dist3_triangle (P 0%nat) (P k) (P (S k))). lra.
Qed.

Lemma boundary_chord (R_ : R) (m : nat) (v : R) :
  (2 <= m)%nat -> 2 * Rabs v <= polyline_length (boundary_points R_ m v).
Proof.
  intros Hm. unfold boundary_points.
  destruct m as [|k]; [lia|].
  set (P := fun j : nat =>
              let u := sample 0 (2 * PI) (S k) j in
              (mobius_x R_ u v, mobius_y R_ u v, mobius_z u v)).
  eapply Rle_trans; [|apply (polyline_length_chord P k)].
  assert (E0 : P 0%nat = (R_ + v, 0, 0)).
  { unfold P. cbv zeta. rewrite sample_first.
    apply (parametric_equations_at_0 (sampled_attrs R_ 0 0) v). }
  assert (E1 : P k = (R_ - v, 0, 0)).
  { pose proof (sample_last 0 (2 * PI) (S k) Hm) as Hlast.
    replace (S k - 1)%nat with k in Hlast by lia.
    unfold P. cbv zeta. rewrite Hlast.
    apply (parametric_equations_at_2PI (sampled_attrs R_ 0 0) v). }
  rewrite E0, E1. unfold dist3.
  replace ((R_ - v - (R_ + v)) ^ 2 + (0 - 0) ^ 2 + (0 - 0) ^ 2)
    with (Rsqr (2 * v)) by (unfold Rsqr; ring).
  rewrite sqrt_Rsqr_abs, Rabs_mult, (Rabs_pos_eq 2) by lra. lra.
Qed.

(** The edge length is never below [2 |w|]: each of the two boundary
    polylines runs between two points that are [|w|] apart. *)
Theorem edge_length_lower_bound (R_ w : R) (n : Z) :
  (2 <= n)%Z ->
  exists self,
    init_attrs R_ w n = Ok self
    /\ 2 * Rabs w <= compute_edge_length self.
Proof.
  intros Hn. exists (sampled_attrs R_ w n).
  split; [now apply init_attrs_real|].
  rewrite compute_edge_length_sampled.
  assert (Hm : (2 <= Z.to_nat n)%nat) by lia.
  pose proof (boundary_chord R_ (Z.to_nat n) (w / 2) Hm) as Hu.
  pose proof (boundary_chord R_ (Z.to_nat n) (- w / 2) Hm) as Hl.
  assert (E1 : 2 * Rabs (w / 2) = Rabs w).
  { unfold Rdiv. rewrite Rabs_mult, (Rabs_pos_eq (/ 2)) by lra. lra. }
  assert (E2 : 2 * Rabs (- w / 2) = Rabs w).
  { replace (- w / 2) with (- (w / 2)) by lra. now rewrite Rabs_Ropp. }
  lra.
Qed.

Lemma edge_length_lower_bound_witness :
  (2 <= 100)%Z
  /\ exists self,
       init_attrs 5 2 100 = Ok self
       /\ 2 * Rabs 2 <= compute_edge_length self.
Proof.
  split; [lia | apply (edge_length_lower_bound 5 2 100); lia].
Defined.

(** *** Over the reals: the mesh *)

Lemma mesh_cell_sampled (R_ w : R) (n : Z) (i j : nat) :
  (i < Z.to_nat n)%nat -> (j < Z.to_nat n)%nat ->
  mesh_cell (compute_mesh (sampled_attrs R_ w n)) i j
  = Some (parametric_equations (sampled_attrs R_ w n)
            (sample 0 (2 * PI) (Z.to_nat n) j)
            (sample (- w / 2) (w / 2) (Z.to_nat n) i)).
Proof.
  intros Hi Hj. rewrite mesh_cell_meshgrid by reflexivity.
  cbn [sampled_attrs self_u self_v].
  now rewrite !nth_error_evenly_spaced.
Qed.

Lemma parametric_equations_mirror (self : Attrs) (u v : R) :
  parametric_equations self (2 * PI - u) (- v)
  = half_turn (parametric_equations self u v).
Proof.
  unfold parametric_equations, half_turn. real_ops.
  rewrite cos_half_mirror, sin_half_mirror, cos_mirror, sin_mirror.
  triple_eq.
Qed.

Lemma v_sample_mirror (w : R) (m i : nat) :
  (2 <= m)%nat -> (i < m)%nat ->
  sample (- w / 2) (w / 2) m (m - 1 - i) = - sample (- w / 2) (w / 2) m i.
Proof. intros Hm Hi. rewrite sample_mirror by assumption. lra. Qed.

Lemma u_sample_mirror (m j : nat) :
  (2 <= m)%nat -> (j < m)%nat ->
  sample 0 (2 * PI) m (m - 1 - j) = 2 * PI - sample 0 (2 * PI) m j.
Proof. intros Hm Hj. rewrite sample_mirror by assumption. lra. Qed.

(** The mesh is symmetric under the half turn about the x axis: the point
    in row [n-1-i] and column [n-1-j] is the point in row [i] and column
    [j] with y and z negated. *)
Theorem mesh_half_turn_symmetry (R_ w : R) (n : Z) (i j : nat) :
  (2 <= n)%Z -> (i < Z.to_nat n)%nat -> (j < Z.to_nat n)%nat ->
  let m := Z.to_nat n in
  exists self p,
    init_attrs R_ w n = Ok self
    /\ mesh_cell (compute_mesh self) i j = Some p
    /\ mesh_cell (compute_mesh self) (m - 1 - i) (m - 1 - j)
       = Some (half_turn p).
Proof.
  intros Hn Hi Hj m. exists (sampled_attrs R_ w n). eexists.
  assert (Hm : (2 <= m)%nat) by (unfold m; lia).
  split; [now apply init_attrs_real|].
  split; [now apply mesh_cell_sampled|].
  rewrite mesh_cell_sampled by (fold m; lia). fold m.
  rewrite u_sample_mirror, v_sample_mirror by assumption.
  now rewrite parametric_equations_mirror.
Qed.

Lemma mesh_half_turn_symmetry_witness :
  (2 <= 100)%Z /\ (3 < Z.to_nat 100)%nat /\ (7 < Z.to_nat 100)%nat
  /\ exists self p,
       init_attrs 5 2 100 = Ok self
       /\ mesh_cell (compute_mesh self) 3 7 = Some p
       /\ mesh_cell (compute_mesh self)
            (Z.to_nat 100 - 1 - 3) (Z.to_nat 100 - 1 - 7)
          = Some (half_turn p).
Proof.
  split; [lia|]. split; [simpl; lia|]. split; [simpl; lia|].
  apply (mesh_half_turn_symmetry 5 2 100 3 7); [lia | simpl; lia..].
Defined.

(** The seam is sampled twice.  The first column of the mesh holds the
    points [(R + v[i], 0, 0)], the last column the points
    [(R - v[i], 0, 0)], so the last column is the first one in reverse
    order. *)
Theorem mesh_seam_columns (R_ w : R) (n : Z) (i : nat) :
  (2 <= n)%Z -> (i < Z.to_nat n)%nat ->
  let m := Z.to_nat n in
  exists self vi,
    init_attrs R_ w n = Ok self
    /\ nth_error (self_v self) i = Some vi
    /\ mesh_cell (compute_mesh self) i 0 = Some (R_ + vi, 0, 0)
    /\ mesh_cell (compute_mesh self) i (m - 1) = Some (R_ - vi, 0, 0)
    /\ mesh_cell (compute_mesh self) (m - 1 - i) (m - 1)
       = mesh_cell (compute_mesh self) i 0.
Proof.
  intros Hn Hi m. exists (sampled_attrs R_ w n).
  exists (sample (- w / 2) (w / 2) m i).
  assert (Hm : (2 <= m)%nat) by (unfold m; lia).
  split; [now apply init_attrs_real|].
  split; [cbn [sampled_attrs self_v]; now apply nth_error_evenly_spaced|].
  rewrite !mesh_cell_sampled by (fold m; lia). fold m.
  rewrite sample_first, sample_last, v_sample_mirror by assumption.
  rewrite !parametric_equations_at_0, !parametric_equations_at_2PI.
  cbn [sampled_attrs self_R].
  repeat split. do 3 f_equal. lra.
Qed.

Lemma mesh_seam_columns_witness :
  (2 <= 100)%Z /\ (3 < Z.to_nat 100)%nat
  /\ exists self vi,
       init_attrs 5 2 100 = Ok self
       /\ nth_error (self_v self) 3 = Some vi
       /\ mesh_cell (compute_mesh self) 3 0 = Some (5 + vi, 0, 0)
       /\ mesh_cell (compute_mesh self) 3 (Z.to_nat 100 - 1)
          = Some (5 - vi, 0, 0)
       /\ mesh_cell (compute_mesh self) (Z.to_nat 100 - 1 - 3)
            (Z.to_nat 100 - 1)
          = mesh_cell (compute_mesh self) 3 0.
Proof.
  split; [lia|]. split; [simpl; lia|].
  apply (mesh_seam_columns 5 2 100 3); [lia | simpl; lia].
Defined.

Lemma v_sample_middle (w : R) (k : nat) :
  (1 <= k)%nat -> sample (- w / 2) (w / 2) (2 * k + 1) k = 0.
Proof.
  intros Hk. unfold sample.
  rewrite plus_INR, mult_INR. simpl (INR 2). simpl (INR 1).
  assert (1 <= INR k) by (apply (le_INR 1); lia).
  field. lra.
Qed.

(** For an odd resolution the middle row of the mesh is the centre circle:
    [v] vanishes there and the points are [(R cos u, R sin u, 0)]. *)
Theorem mesh_middle_row (R_ w : R) (k j : nat) :
  (1 <= k)%nat -> (j < 2 * k + 1)%nat ->
  exists self uj,
    init_attrs R_ w (Z.of_nat (2 * k + 1)) = Ok self
    /\ nth_error (self_u self) j = Some uj
    /\ nth_error (self_v self) k = Some 0
    /\ mesh_cell (compute_mesh self) k j
       = Some (R_ * cos uj, R_ * sin uj, 0).
Proof.
  intros Hk Hj.
  set (n := Z.of_nat (2 * k + 1)).
  assert (Hm : Z.to_nat n = (2 * k + 1)%nat) by (unfold n; apply Nat2Z.id).
  exists (sampled_attrs R_ w n), (sample 0 (2 * PI) (2 * k + 1) j).
  split; [apply init_attrs_real; unfold n; lia|].
  cbn [sampled_attrs self_u self_v].
  rewrite mesh_cell_sampled by (rewrite Hm; lia). rewrite Hm.
  rewrite !nth_error_evenly_spaced by lia.
  rewrite v_sample_middle by assumption.
  repeat split.
  unfold parametric_equations. real_ops. cbn [sampled_attrs self_R].
  f_equal. triple_eq.
Qed.

Lemma mesh_middle_row_witness :
  (1 <= 50)%nat /\ (7 < 2 * 50 + 1)%nat
  /\ exists self uj,
       init_attrs 5 2 (Z.of_nat (2 * 50 + 1)) = Ok self
       /\ nth_error (self_u self) 7 = Some uj
       /\ nth_error (self_v self) 50 = Some 0
       /\ mesh_cell (compute_mesh self) 50 7
          = Some (5 * cos uj, 5 * sin uj, 0).
Proof.
  split; [lia|]. split; [lia|].
  apply (mesh_middle_row 5 2 50 7); lia.
Defined.

(** ** The constructor on the attribute dictionary *)

Section StoreFacts.

Context {F : Type} `{Float F}.



(** The order of the assignments matters: on a new object every method
    fails at its first lookup. *)
Lemma methods_need_attributes :
  obj_compute_mesh empty_object = Fail (AttributeError a_U)
  /\ obj_compute_surface_area empty_object = Fail (AttributeError a_U)
  /\ obj_compute_edge_length empty_object = Fail (AttributeError a_w).
Proof. repeat split. Qed.

End StoreFacts.

(** ** The rounded program

    Runs of the embedding on binary64 with the tabulated [cos] and [sin].
    They show where the statements proved over the reals stop short of the
    values the program returns. *)

(** At the seam the rounded program returns x exactly, and y and z only up
    to the rounding of [sin] near pi and 2 pi. *)
Example seam_binary64 :
  let self := @mkAttrs float 5%float 2%float 100 [] [] [] [] in
  @parametric_equations float Binary64_table self
    0x1.921fb54442d18p+2%float 1%float
  = (4%float, (-0x1.1a62633145c07p-50)%float, 0x1.1a62633145c07p-53%float)
  /\ @parametric_equations float Binary64_table self 0%float (-1)%float
     = (4%float, 0%float, (-0)%float)
  /\ @parametric_equations float Binary64_table self 0%float 1%float
     = (6%float, 0%float, 0%float).
Proof. cbv zeta. repeat split; vm_compute; reflexivity. Qed.

(** C9 as stated fails on binary64: with the finite arguments
    R = 0x1.ep+1023 (about 1.69e308), w = 0x1p+1023 (about 8.99e307) and
    n = 2, the sum R + v overflows at v = +w/2, the area element at
    (u, v) = (0, w/2) is infinity times 0, and [compute_surface_area]
    returns NaN, which is not [>= 0]. *)
Lemma surface_area_nan_binary64 :
  PrimFloat.ltb 0%float 0x1p+1023%float = true
  /\ PrimFloat.ltb 0x1.ep+1023%float PrimFloat.infinity = true
  /\ exists self,
       @init_attrs float Binary64_table 0x1.ep+1023%float 0x1p+1023%float 2
       = Ok self
       /\ @area_elements float Binary64_table self
          = [[PrimFloat.infinity; PrimFloat.infinity];
             [PrimFloat.nan; PrimFloat.infinity]]
       /\ @compute_surface_area float Binary64_table self = Ok PrimFloat.nan
       /\ PrimFloat.leb 0%float PrimFloat.nan = false.
Proof.
  split; [reflexivity|]. split; [reflexivity|].
  eexists. split; [vm_compute; reflexivity|].
  repeat split; vm_compute; reflexivity.
Qed.

(** C10 as stated fails on binary64: for R = 3, w = 5.25 and n = 3 the
    polyline at v = +w/2 has length 13.291269304250248 and the polyline at
    v = -w/2 has length 13.29126930425025; the edge length,
    26.5825386085005, is twice the second and not twice the first. *)
Lemma boundary_polylines_differ_binary64 :
  exists self,
    @init_attrs float Binary64_table 3%float 5.25%float 3 = Ok self
    /\ @edge_step float Binary64_table self 0%float (5.25 / 2)%float
       = 0x1.a952140102abfp+3%float
    /\ @edge_step float Binary64_table self 0%float (- 5.25 / 2)%float
       = 0x1.a952140102ac0p+3%float
    /\ PrimFloat.eqb 0x1.a952140102abfp+3%float 0x1.a952140102ac0p+3%float
       = false
    /\ @compute_edge_length float Binary64_table self
       = 0x1.a952140102ac0p+4%float
    /\ PrimFloat.eqb 0x1.a952140102ac0p+4%float
         (2 * 0x1.a952140102abfp+3)%float = false.
Proof.
  eexists. split; [vm_compute; reflexivity|].
  repeat split; vm_compute; reflexivity.
Qed.
